(** * deep-rent/retry: backoff strategies and the retry cycle

    A shallow embedding of the Go packages [backoff] and [retry].

    - Go's [int] and [time.Duration] are 64-bit integers: they are modelled
      as [Z] with the wrap-around written out ([Int64.wrap]).
    - Go's [float64] is IEEE 754 binary64: it is modelled by the Standard
      Library's executable specification [SpecFloat] at precision 53 and
      maximal exponent 1024, so every float operation of the source is
      evaluated bit for bit.
    - Callbacks, clocks, random sources and contexts act on an abstract
      world [W] that is threaded through the code as explicit state. *)

From Stdlib Require Import ZArith QArith Qround Qpower List Bool Lia Lqa.
From Stdlib Require Import Floats.SpecFloat.
Import ListNotations.

Local Open Scope Z_scope.

(** ** 64-bit integers *)

Module Int64.

Definition min : Z := - 2 ^ 63.
Definition max : Z := 2 ^ 63 - 1.

(** Two's complement wrap-around of an integer result. *)
Definition wrap (z : Z) : Z := (z + 2 ^ 63) mod 2 ^ 64 - 2 ^ 63.

Definition in_range (z : Z) : bool := (min <=? z) && (z <=? max).

Definition add (a b : Z) : Z := wrap (a + b).
Definition sub (a b : Z) : Z := wrap (a - b).
Definition mul (a b : Z) : Z := wrap (a * b).

End Int64.

(** ** IEEE 754 binary64 *)

Module Float64.

Definition prec : Z := 53.
Definition emax : Z := 1024.

Definition float64 : Type := spec_float.

Definition valid (x : float64) : bool := valid_binary prec emax x.

Definition mul : float64 -> float64 -> float64 := SFmul prec emax.
Definition add : float64 -> float64 -> float64 := SFadd prec emax.
Definition sub : float64 -> float64 -> float64 := SFsub prec emax.
Definition div : float64 -> float64 -> float64 := SFdiv prec emax.
Definition sqrt : float64 -> float64 := SFsqrt prec emax.
Definition ltb : float64 -> float64 -> bool := SFltb.
Definition leb : float64 -> float64 -> bool := SFleb.
Definition eqb : float64 -> float64 -> bool := SFeqb.

(** Go's [a > b] and [a >= b] on floats. *)
Definition gtb (a b : float64) : bool := ltb b a.
Definition geb (a b : float64) : bool := leb b a.

Definition NaN : float64 := S754_nan.
Definition Inf (neg : bool) : float64 := S754_infinity neg.

Definition is_nan (x : float64) : bool :=
  match x with S754_nan => true | _ => false end.

Definition is_finite (x : float64) : bool :=
  match x with S754_zero _ | S754_finite _ _ _ => true | _ => false end.

Definition signbit (x : float64) : bool :=
  match x with
  | S754_zero s | S754_infinity s | S754_finite s _ _ => s
  | S754_nan => false
  end.

(** The conversion [float64(z)] of an integer: round to nearest, ties to
    even. *)
Definition of_Z (z : Z) : float64 := binary_normalize prec emax z 0 false.

(** The rational value of a finite float (0 for infinities and NaN). *)
Definition to_Q (x : float64) : Q :=
  match x with
  | S754_finite s m (Zneg k) => cond_Zopp s (Zpos m) # (2 ^ k)%positive
  | S754_finite s m e => inject_Z (cond_Zopp s (Zpos m * 2 ^ e))
  | _ => 0%Q
  end.

(** Truncation toward zero of a finite float. *)
Definition trunc (x : float64) : option Z :=
  match x with
  | S754_zero _ => Some 0
  | S754_finite s m (Zneg k) => Some (cond_Zopp s (Zpos m / 2 ^ Zpos k))
  | S754_finite s m e => Some (cond_Zopp s (Zpos m * 2 ^ e))
  | _ => None
  end.

(** The conversion [int64(x)] (also [time.Duration(x)]) of a float.  The
    value is truncated toward zero.  Go leaves the result unspecified when
    the truncated value does not fit; the compiled code for amd64 uses
    CVTTSD2SQ, which yields the "integer indefinite" value [-2^63] for NaN,
    infinities and out-of-range operands.  That behaviour is fixed here. *)
Definition to_int64 (x : float64) : Z :=
  match trunc x with
  | Some z => if Int64.in_range z then z else Int64.min
  | None => Int64.min
  end.

(** [x] is a finite float whose value is exactly the rational [q]: the
    operation that produced [x] did not round. *)
Definition exactly (x : float64) (q : Q) : Prop :=
  is_finite x = true /\ (to_Q x == q)%Q.

(** [x] is a float in the half-open interval [[0,1)], by the comparisons of
    the language: [0 <= x && x < 1]. *)
Definition in_unit_interval (x : float64) : Prop :=
  valid x = true /\ leb (of_Z 0) x = true /\ ltb x (of_Z 1) = true.

End Float64.

(** ** Go's [math] package

    [math.Pow] is called by the exponential strategy.  It is part of Go's
    standard library, not of this repository; the definitions below follow
    the portable implementation (math/pow.go, math/frexp.go, math/ldexp.go,
    math/modf.go).  [Exp] and [Log] are only reached for an exponent with a
    fractional part and stay parameters. *)

Module math.
Import Float64.

Definition Abs (x : float64) : float64 := SFabs x.

(** [Frexp] breaks [f] into a fraction in [[1/2, 1)] and a power of two. *)
Definition Frexp (f : float64) : float64 * Z :=
  match f with
  | S754_finite _ _ _ => SFfrexp prec emax f
  | _ => (f, 0)
  end.

(** [Ldexp] is the inverse of [Frexp]: [frac * 2^exp], rounded once. *)
Definition Ldexp (frac : float64) (exp : Z) : float64 :=
  SFldexp prec emax frac exp.

Definition modf_ge1 (f : float64) : float64 * float64 :=
  match trunc f with
  | Some z => let i := of_Z z in (i, sub f i)
  | None => (f, sub f f)
  end.

Definition modf_nonneg (f : float64) : float64 * float64 :=
  if ltb f (of_Z 1) then
    if eqb f (of_Z 0) then (f, f) else (of_Z 0, f)
  else modf_ge1 f.

(** [Modf] returns the integer and the fractional part of [f]. *)
Definition Modf (f : float64) : float64 * float64 :=
  if ltb f (of_Z 1) && ltb f (of_Z 0) then
    let '(i, fr) := modf_nonneg (SFopp f) in (SFopp i, SFopp fr)
  else modf_nonneg f.

Definition isOddInt (x : float64) : bool :=
  if geb (Abs x) (of_Z (2 ^ 53)) then false
  else
    let '(xi, xf) := Modf x in
    eqb xf (of_Z 0) && Z.odd (to_int64 xi).

Definition half : float64 := Ldexp (of_Z 1) (-1).

(** The repeated squaring loop of [pow]:
    [for i := int64(yi); i != 0; i >>= 1 { ... }], by recursion on the
    binary digits of [i]. *)
Fixpoint pow_loop (i : positive) (a1 : float64) (ae : Z)
    (x1 : float64) (xe : Z) : float64 * Z :=
  if (xe <? - 2 ^ 12) || (2 ^ 12 <? xe) then
    (* catastrophic overflow or underflow *)
    (a1, ae + xe)
  else
    let '(a1', ae') :=
      match i with
      | xO _ => (a1, ae)
      | _ => (mul a1 x1, ae + xe)
      end in
    let x1' := mul x1 x1 in
    let xe' := 2 * xe in
    let '(x1'', xe'') :=
      if ltb x1' half then (add x1' x1', xe' - 1) else (x1', xe') in
    match i with
    | xH => (a1', ae')
    | xO i' | xI i' => pow_loop i' a1' ae' x1'' xe''
    end.

Section Libm.
Variables Exp Log : float64 -> float64.

Definition pow_finite (x y : float64) : float64 :=
  let '(yi, yf) := Modf (Abs y) in
  if negb (eqb yf (of_Z 0)) && ltb x (of_Z 0) then NaN
  else if geb yi (of_Z (2 ^ 63)) then
    (* yi is a large even int: overflow or underflow unless x = -1 *)
    if eqb x (of_Z (-1)) then of_Z 1
    else if Bool.eqb (ltb (Abs x) (of_Z 1)) (gtb y (of_Z 0)) then of_Z 0
    else Inf false
  else
    (* ans = a1 * 2**ae; ans *= x**yf *)
    let '(yi', a1) :=
      if negb (eqb yf (of_Z 0)) then
        let '(yf', yi') :=
          if gtb yf half then (sub yf (of_Z 1), add yi (of_Z 1))
          else (yf, yi) in
        (yi', Exp (mul yf' (Log x)))
      else (yi, of_Z 1) in
    let '(x1, xe) := Frexp x in
    let '(a1', ae) :=
      match to_int64 yi' with
      | Zpos i => pow_loop i a1 0 x1 xe
      | _ => (a1, 0)
      end in
    if ltb y (of_Z 0) then Ldexp (div (of_Z 1) a1') (- ae)
    else Ldexp a1' ae.

(** [Pow(x, y)] returns [x**y]. *)
Definition Pow (x y : float64) : float64 :=
  if eqb y (of_Z 0) || eqb x (of_Z 1) then of_Z 1
  else if eqb y (of_Z 1) then x
  else if is_nan x || is_nan y then NaN
  else if eqb x (of_Z 0) then
    if ltb y (of_Z 0) then
      if signbit x && isOddInt y then Inf (signbit x) else Inf false
    else
      if signbit x && isOddInt y then x else of_Z 0
  else if negb (is_finite y) then
    if eqb x (of_Z (-1)) then of_Z 1
    else if Bool.eqb (ltb (Abs x) (of_Z 1)) (negb (signbit y)) then of_Z 0
    else Inf false
  else if negb (is_finite x) then
    if signbit x then
      (* Pow(-0, -y) *)
      if gtb y (of_Z 0) then
        if isOddInt y then Inf true else Inf false
      else
        if isOddInt y then S754_zero true else of_Z 0
    else
      if ltb y (of_Z 0) then of_Z 0 else Inf false
  else if eqb y half then sqrt x
  else if eqb y (SFopp half) then div (of_Z 1) (sqrt x)
  else pow_finite x y.

End Libm.
End math.

(** ** Go's [time] package *)

Module time.

(** A [Duration] is a signed 64-bit count of nanoseconds. *)
Definition Duration : Type := Z.

Definition Nanosecond : Duration := 1.
Definition Microsecond : Duration := 1000 * Nanosecond.
Definition Millisecond : Duration := 1000 * Microsecond.
Definition Second : Duration := 1000 * Millisecond.

Definition minDuration : Duration := Int64.min.
Definition maxDuration : Duration := Int64.max.

(** A [Time] is an instant, counted here in nanoseconds from a fixed
    origin. *)
Definition Time : Type := Z.

(** [t.Sub(u)] is the duration [t - u], saturated to the largest or
    smallest [Duration] when the difference does not fit. *)
Definition Sub (t u : Time) : Duration :=
  if t - u <? minDuration then minDuration
  else if maxDuration <? t - u then maxDuration
  else t - u.

End time.

(** A call that may panic. *)
Inductive outcome (A : Type) : Type :=
| Returns (a : A)
| Panics.

Arguments Returns {A} a.
Arguments Panics {A}.

(** ** Package [backoff] *)

Module backoff.
Import Float64.

(** [Exit] is returned by a strategy to signal the end of a retry cycle. *)
Definition Exit : time.Duration := -1.

Section World.

(** The state of everything outside the package: what clocks, random
    sources and foreign strategies read and change. *)
Variable W : Type.

(** A [Clock] determines the reference time; [Time()] is a call into the
    world. *)
Definition Clock : Type := W -> time.Time * W.

(** [Random] returns a pseudo-random number in the half-open interval
    [[0,1)]. *)
Definition Random : Type := W -> float64 * W.

(** The implementations of the interface [Strategy]: one constructor per
    struct type of the package, and [custom] for an implementation of the
    interface defined elsewhere. *)
Inductive Strategy : Type :=
| constant (d : time.Duration)
| linear (d k : time.Duration)
| exponential (d : time.Duration) (m : float64)
| cap (strategy : Strategy) (max : time.Duration)
| jitter (strategy : Strategy) (spread : float64) (random : Random)
| limit (strategy : Strategy) (n : Z)
| timeout (strategy : Strategy) (clock : Clock) (limit : time.Duration)
| custom (impl : Z -> time.Time -> W -> time.Duration * W).

(** [math.Pow], as linked into the program. *)
Variable Pow : float64 -> float64 -> float64.

Definition exponential_Delay (d : time.Duration) (m : float64) (n : Z)
    : time.Duration :=
  to_int64 (mul (of_Z d) (Pow m (of_Z (Int64.sub n 1)))).

Definition linear_Delay (d k : time.Duration) (n : Z) : time.Duration :=
  let delay := Int64.add (Int64.mul k (Int64.sub n 1)) d in
  if delay <? 0 then 0 else delay.

(** The float expression of [jitter.Delay]:
    [float64(delay) - w + (j.random() * (2*w + 1))] with
    [w := float64(delay) * j.spread]. *)
Definition jitter_float (delay : time.Duration) (spread r : float64)
    : float64 :=
  let w := mul (of_Z delay) spread in
  add (sub (of_Z delay) w) (mul r (add (mul (of_Z 2) w) (of_Z 1))).

(** The method [Delay] of every implementation. *)
Fixpoint Delay (s : Strategy) (n : Z) (start : time.Time) (w : W)
    : time.Duration * W :=
  match s with
  | constant d => (d, w)
  | linear d k => (linear_Delay d k n, w)
  | exponential d m => (exponential_Delay d m n, w)
  | cap strategy max =>
      let '(delay, w1) := Delay strategy n start w in
      (if max <? delay then max else delay, w1)
  | jitter strategy spread random =>
      let '(delay, w1) := Delay strategy n start w in
      if delay =? Exit then (delay, w1)
      else
        let '(r, w2) := random w1 in
        (to_int64 (jitter_float delay spread r), w2)
  | limit strategy n_max =>
      if n >=? n_max then (Exit, w) else Delay strategy n start w
  | timeout strategy clock lim =>
      let '(now, w1) := clock w in
      if time.Sub now start >=? lim then (Exit, w1)
      else Delay strategy n start w1
  | custom impl => impl n start w
  end.

(** [Constant] returns a strategy that always returns delay [d]; it panics
    if [d < 0]. *)
Definition Constant (d : time.Duration) : outcome Strategy :=
  if d <? 0 then Panics else Returns (constant d).

(** [Once] always returns [Exit]. *)
Definition Once : Strategy := constant Exit.

Definition Linear (d k : time.Duration) : outcome Strategy :=
  if d <? 0 then Panics
  else if k =? 0 then Constant d
  else Returns (linear d k).

Definition Exponential (d : time.Duration) (m : float64)
    : outcome Strategy :=
  if d <? 0 then Panics
  else if ltb m (of_Z 0) then Panics
  else if (d =? 0) || eqb m (of_Z 0) then Constant 0
  else if eqb m (of_Z 1) then Constant d
  else Returns (exponential d m).

Definition Limit (strategy : Strategy) (n : Z) : Strategy :=
  if n <? 1 then strategy else limit strategy n.

Definition Timeout (strategy : Strategy) (limit : time.Duration)
    (clock : Clock) : Strategy :=
  if limit <=? 0 then strategy else timeout strategy clock limit.

Definition Jitter (strategy : Strategy) (spread : float64)
    (random : Random) : outcome Strategy :=
  if ltb spread (of_Z 0) || geb spread (of_Z 1) then Panics
  else if eqb spread (of_Z 0) then Returns strategy
  else Returns (jitter strategy spread random).

(** Modelled from the spec: the source of [Cap] and of the method [Delay]
    of its wrapper ([cap] above) is not among the source files.  The spec
    gives [delay = min(inner(n,start), max)] and "max <= 0 => no-op
    passthrough"; the callers [Cycler.Cap] and the tests in cap_test.go
    agree. *)
Definition Cap (strategy : Strategy) (max : time.Duration) : Strategy :=
  if max <=? 0 then strategy else cap strategy max.

(** The strategy [s] ends the cycle at the [N]-th attempt at the latest: it
    returns [Exit] for every attempt count from [N] on, whenever and in
    whatever world it is asked. *)
Definition exits_from (N : Z) (s : Strategy) : Prop :=
  forall n start w, N <= n -> fst (Delay s n start w) = Exit.

End World.

Arguments constant {W} d.
Arguments linear {W} d k.
Arguments exponential {W} d m.
Arguments cap {W} strategy max.
Arguments jitter {W} strategy spread random.
Arguments limit {W} strategy n.
Arguments timeout {W} strategy clock limit.
Arguments custom {W} impl.
Arguments Delay {W} Pow s n start w.
Arguments Constant {W} d.
Arguments Once {W}.
Arguments Linear {W} d k.
Arguments Exponential {W} d m.
Arguments Limit {W} strategy n.
Arguments Timeout {W} strategy limit clock.
Arguments Jitter {W} strategy spread random.
Arguments Cap {W} strategy max.
Arguments exits_from {W} Pow N s.

End backoff.

(** ** Package [retry] *)

Module retry.

Section World.

Variable W : Type.

(** The error values an attempt can produce that are not of type
    [*ExitError]. *)
Variable E : Type.

(** A non-nil value of the interface [error]: either some ordinary error or
    a pointer [&ExitError{Cause}], as [ForceExit] makes it, with its [Cause]
    (which may be nil).  A value of Go's type [error] is an [option error],
    [None] being nil. *)
#[warnings="-register-all"]
Inductive error : Type :=
| OtherError (e : E)
| ExitError (Cause : option error).

(** [ForceExit] wraps [err] in an [ExitError]. *)
Definition ForceExit (err : option error) : option error :=
  Some (ExitError err).

Definition AttemptFunc : Type := Z -> W -> option error * W.

Definition ErrorHandlerFunc : Type :=
  Z -> time.Duration -> option error -> W -> W.

(** A [context.Context], as far as the package uses it: [Err()] reads the
    cancellation state of the world, the channel [Done()] takes part in the
    [select] below. *)
Record Context : Type := { Err : W -> option error }.

(** [context.Background()] is never cancelled. *)
Definition Background : Context := {| Err := fun _ => None |}.

Record Cycler : Type := {
  strategy : backoff.Strategy W;
  handlers : list ErrorHandlerFunc;
  Clock : backoff.Clock W
}.

(** The default clock [now] and the default random source [random] of the
    package read the wall clock and a generator seeded at start-up. *)
Variable now : backoff.Clock W.
Variable random : backoff.Random W.

Definition NewCycler (strategy : backoff.Strategy W) : Cycler :=
  {| strategy := strategy; handlers := []; Clock := now |}.

Definition OnError (c : Cycler) (handler : ErrorHandlerFunc) : Cycler :=
  {| strategy := strategy c;
     handlers := handlers c ++ [handler];
     Clock := Clock c |}.

Definition with_strategy (c : Cycler) (s : backoff.Strategy W) : Cycler :=
  {| strategy := s; handlers := handlers c; Clock := Clock c |}.

Definition Cap (c : Cycler) (max : time.Duration) : Cycler :=
  with_strategy c (backoff.Cap (strategy c) max).

Definition Jitter (c : Cycler) (spread : Float64.float64)
    : outcome Cycler :=
  match backoff.Jitter (strategy c) spread random with
  | Returns s => Returns (with_strategy c s)
  | Panics => Panics
  end.

Definition Limit (c : Cycler) (n : Z) : Cycler :=
  with_strategy c (backoff.Limit (strategy c) n).

Definition Timeout (c : Cycler) (limit : time.Duration) : Cycler :=
  with_strategy c (backoff.Timeout (strategy c) limit (Clock c)).

(** *** The retry cycle *)

(** Which case of the [select] statement proceeded. *)
Inductive Wake : Type := CtxDone | TimerFired.

(** What a retry cycle does to the outside, in order. *)
Inductive Event : Type :=
| EvClock (start : time.Time)
| EvAttempt (n : Z) (err : option error)
| EvDelay (n : Z) (start : time.Time) (delay : time.Duration)
| EvCtxErr (e : option error)
| EvHandler (i : nat) (n : Z) (delay : time.Duration) (err : option error)
| EvNewTimer (delay : time.Duration)
| EvReset (delay : time.Duration)
| EvSelect (wake : Wake)
| EvStop.

(** A computation that acts on the world and logs its events. *)
Definition M (A : Type) : Type := W -> A * W * list Event.

Definition ret {A : Type} (a : A) : M A := fun w => (a, w, []).

Definition bind {A B : Type} (m : M A) (f : A -> M B) : M B :=
  fun w =>
    let '(a, w1, t1) := m w in
    let '(b, w2, t2) := f a w1 in
    (b, w2, t1 ++ t2).

Definition emit (e : Event) : M unit := fun w => (tt, w, [e]).

(** The scheduler: which of the two channels of the [select] statement
    delivers first once the timer is set to [delay], and the world at that
    moment. *)
Variable race : Context -> time.Duration -> W -> Wake * W.

(** [math.Pow], as linked into the program. *)
Variable Pow : Float64.float64 -> Float64.float64 -> Float64.float64.

Local Notation "x <- m ;; k" := (bind m (fun x => k))
  (at level 61, m at next level, right associativity).
Local Notation "m ;;; k" := (bind m (fun _ => k))
  (at level 61, right associativity).

Definition call_clock (c : Cycler) : M time.Time :=
  fun w => let '(t, w1) := Clock c w in (t, w1, [EvClock t]).

Definition call_attempt (attempt : AttemptFunc) (n : Z) : M (option error) :=
  fun w => let '(err, w1) := attempt n w in (err, w1, [EvAttempt n err]).

Definition call_Delay (c : Cycler) (n : Z) (start : time.Time)
    : M time.Duration :=
  fun w =>
    let '(delay, w1) := backoff.Delay Pow (strategy c) n start w in
    (delay, w1, [EvDelay n start delay]).

Definition call_Err (ctx : Context) : M (option error) :=
  fun w => let e := Err ctx w in (e, w, [EvCtxErr e]).

(** [for _, h := range c.handlers { h(n, delay, err) }]; [i] is the index
    of the first handler of [hs] in [c.handlers]. *)
Fixpoint notify (hs : list ErrorHandlerFunc) (i : nat) (n : Z)
    (delay : time.Duration) (err : option error) : M unit :=
  match hs with
  | [] => ret tt
  | h :: hs' =>
      (fun w => (tt, h n delay err w, [EvHandler i n delay err])) ;;;
      notify hs' (S i) n delay err
  end.

(** The timer [t]: nil or allocated. *)
Definition set_timer (t : bool) (delay : time.Duration) : M bool :=
  emit (if t then EvReset delay else EvNewTimer delay) ;;; ret true.

Definition select (ctx : Context) (delay : time.Duration) : M Wake :=
  fun w => let '(wake, w1) := race ctx delay w in (wake, w1, [EvSelect wake]).

(** What the loop has come to: it has returned [err], or it goes on. *)
Inductive Result : Type :=
| Returned (err : option error)
| Running.

(** One pass through the body of the retry loop, entered with attempt
    count [n] and timer [t]; it yields the outcome with the new count and
    timer. *)
Definition iteration (c : Cycler) (ctx : Context) (attempt : AttemptFunc)
    (start : time.Time) (n : Z) (t : bool) : M (Result * Z * bool) :=
  (* increase attempt count *)
  let n := Int64.add n 1 in
  err <- call_attempt attempt n ;;
  match err with
  | None => (* success *) ret (Returned None, n, t)
  | Some (ExitError Cause) => (* unrecoverable error *)
      ret (Returned Cause, n, t)
  | Some (OtherError _) =>
      delay <- call_Delay c n start ;;
      if delay =? backoff.Exit then
        e <- call_Err ctx ;;
        (* exit early *)
        ret (Returned (match e with Some _ => e | None => err end), n, t)
      else
        (* notify error handlers *)
        notify (handlers c) 0 n delay err ;;;
        t' <- set_timer t delay ;;
        wake <- select ctx delay ;;
        match wake with
        | CtxDone =>
            (* exit early *)
            e <- call_Err ctx ;; ret (Returned e, n, t')
        | TimerFired =>
            (* wait for delay to elapse *)
            ret (Running, n, t')
        end
  end.

(** The retry loop [for { ... }], run for at most [fuel] iterations from
    the loop state [(n, t)]. *)
Fixpoint loop (c : Cycler) (ctx : Context) (attempt : AttemptFunc)
    (start : time.Time) (fuel : nat) (n : Z) (t : bool)
    : M (Result * Z * bool) :=
  match fuel with
  | O => ret (Running, n, t)
  | S fuel' =>
      x <- iteration c ctx attempt start n t ;;
      match x with
      | (Running, n', t') => loop c ctx attempt start fuel' n' t'
      | (Returned _, _, _) => ret x
      end
  end.

(** The deferred function: [if t != nil { t.Stop() }], run when the method
    returns. *)
Definition deferred (x : Result * Z * bool) : M Result :=
  match x with
  | (Returned err, _, true) => emit EvStop ;;; ret (Returned err)
  | (r, _, _) => ret r
  end.

(** [TryWithContext], with the loop bounded by [fuel] iterations: the
    result is [Running] when the loop has not returned within the bound. *)
Definition TryWithContext (c : Cycler) (ctx : Context)
    (attempt : AttemptFunc) (fuel : nat) : M Result :=
  start <- call_clock c ;;
  x <- loop c ctx attempt start fuel 0 false ;;
  deferred x.

(** [Try] calls [TryWithContext] using [context.Background]. *)
Definition Try (c : Cycler) (attempt : AttemptFunc) (fuel : nat)
    : M Result :=
  TryWithContext c Background attempt fuel.

(** *** Vocabulary for the properties of a run *)

(** The world after the handlers [hs] ran in order. *)
Definition notified (hs : list ErrorHandlerFunc) (n : Z)
    (delay : time.Duration) (err : option error) (w : W) : W :=
  fold_left (fun w h => h n delay err w) hs w.

(** The calls [h(n, delay, err)] of the [k] handlers registered first, in
    registration order. *)
Definition handler_calls (k : nat) (n : Z) (delay : time.Duration)
    (err : option error) : list Event :=
  map (fun i => EvHandler i n delay err) (seq 0 k).

Definition is_handler_call (e : Event) : bool :=
  match e with EvHandler _ _ _ _ => true | _ => false end.

(** Setting the timer [t] to [delay]. *)
Definition timer_set (t : bool) (delay : time.Duration) : Event :=
  if t then EvReset delay else EvNewTimer delay.

(** What the deferred function does once the method returns. *)
Definition timer_stopped (t : bool) : list Event :=
  if t then [EvStop] else [].

(** The run of [TryWithContext] started in world [w] has read [start] from
    the clock and gone through [k] iterations without returning; it stands
    at the head of the loop with count [n] and timer [t] in world [w'],
    having logged [tr]. *)
Definition reaches (c : Cycler) (ctx : Context) (attempt : AttemptFunc)
    (w : W) (k : nat) (start : time.Time) (n : Z) (t : bool) (w' : W)
    (tr : list Event) : Prop :=
  exists w0 tr',
    Clock c w = (start, w0) /\
    loop c ctx attempt start k 0 false w0 = ((Running, n, t), w', tr') /\
    tr = EvClock start :: tr'.

(** The attempt counts that a log shows, in order. *)
Fixpoint attempt_numbers (tr : list Event) : list Z :=
  match tr with
  | [] => []
  | EvAttempt n _ :: tr' => n :: attempt_numbers tr'
  | _ :: tr' => attempt_numbers tr'
  end.

Definition is_wait (e : Event) : bool :=
  match e with EvSelect _ => true | _ => false end.

Definition is_new_timer (e : Event) : bool :=
  match e with EvNewTimer _ => true | _ => false end.

Definition is_reset (e : Event) : bool :=
  match e with EvReset _ => true | _ => false end.

Definition is_stop (e : Event) : bool :=
  match e with EvStop => true | _ => false end.

(** How many events of a log satisfy [f]. *)
Definition count (f : Event -> bool) (tr : list Event) : nat :=
  length (filter f tr).

(** What a run returns when its last attempt returned [err] and no
    cancellation came in between. *)
Definition result_of_attempt (err : option error) : option error :=
  match err with
  | Some (ExitError Cause) => Cause
  | _ => err
  end.

End World.

Arguments OtherError {E} e.
Arguments ExitError {E} Cause.
Arguments EvClock {E}.
Arguments EvAttempt {E}.
Arguments EvDelay {E}.
Arguments EvCtxErr {E}.
Arguments EvHandler {E}.
Arguments EvNewTimer {E}.
Arguments EvReset {E}.
Arguments EvSelect {E}.
Arguments EvStop {E}.
Arguments Returned {E}.
Arguments Running {E}.
Arguments ForceExit {E} err.
Arguments Err {W E} c w.
Arguments Background {W E}.
Arguments strategy {W E} c.
Arguments handlers {W E} c.
Arguments Clock {W E} c.
Arguments NewCycler {W E} now strategy.
Arguments OnError {W E} c handler.
Arguments Cap {W E} c max.
Arguments Jitter {W E} random c spread.
Arguments Limit {W E} c n.
Arguments Timeout {W E} c limit.
Arguments ret {W E A} a w.
Arguments bind {W E A B} m f w.
Arguments emit {W E} e w.
Arguments call_clock {W E} c w.
Arguments call_attempt {W E} attempt n w.
Arguments call_Delay {W E} Pow c n start w.
Arguments call_Err {W E} ctx w.
Arguments notify {W E} hs i n delay err w.
Arguments set_timer {W E} t delay w.
Arguments select {W E} race ctx delay w.
Arguments iteration {W E} race Pow c ctx attempt start n t w.
Arguments loop {W E} race Pow c ctx attempt start fuel n t w.
Arguments deferred {W E} x w.
Arguments notified {W E} hs n delay err w.
Arguments handler_calls {E} k n delay err.
Arguments is_handler_call {E} e.
Arguments timer_set {E} t delay.
Arguments timer_stopped {E} t.
Arguments reaches {W E} race Pow c ctx attempt w k start n t w' tr.
Arguments attempt_numbers {E} tr.
Arguments is_wait {E} e.
Arguments is_new_timer {E} e.
Arguments is_reset {E} e.
Arguments is_stop {E} e.
Arguments count {E} f tr.
Arguments result_of_attempt {E} err.
Arguments TryWithContext {W E} race Pow c ctx attempt fuel w.
Arguments Try {W E} race Pow c attempt fuel w.

End retry.

(** ** The test suite's fixtures

    The worlds, contexts and attempt functions of retry_test.go and of the
    tests of package [backoff]; they serve as concrete inputs below. *)

Module retry_test.
Import Float64.

(** What the tests' closures share: whether [cancel()] was called, and the
    counter [i] of [TestCycler_OnError]. *)
Record World : Type := { cancelled : bool; i : Z }.

Inductive E : Type := test | Canceled.

(** [var ErrTest = errors.New("test")] *)
Definition ErrTest : retry.error E := retry.OtherError test.

Definition cancel (w : World) : World :=
  {| cancelled := true; i := i w |}.

(** [ctx, cancel := context.WithCancel(context.Background())] *)
Definition ctx : retry.Context World E :=
  {| retry.Err := fun w =>
       if cancelled w then Some (retry.OtherError Canceled) else None |}.

(** In the tests nothing but the attempt cancels the context, and a
    cancelled context is seen before a timer of a millisecond fires. *)
Definition race (_ : retry.Context World E) (_ : time.Duration) (w : World)
    : retry.Wake * World :=
  if cancelled w then (retry.CtxDone, w) else (retry.TimerFired, w).

(** A scheduler that wakes the [select] on the context just when the context
    it is given is cancelled. *)
Definition race_ctx (c : retry.Context World E) (_ : time.Duration)
    (w : World) : retry.Wake * World :=
  match retry.Err c w with
  | Some _ => (retry.CtxDone, w)
  | None => (retry.TimerFired, w)
  end.

(** A clock that stands still at [t], as [clock(now)] of timeout_test.go. *)
Definition clock {W : Type} (t : time.Time) : backoff.Clock W :=
  fun w => (t, w).

(** A random source that always returns [r], as [random(r)] of
    jitter_test.go. *)
Definition random {W : Type} (r : float64) : backoff.Random W :=
  fun w => (r, w).

(** The exponent that [exponential.Delay] passes to [math.Pow] is integral:
    [Exp] and [Log] are not reached. *)
Definition unreached : float64 -> float64 := fun _ => NaN.

Definition Pow : float64 -> float64 -> float64 :=
  math.Pow unreached unreached.

(** The float constants [0.25], [0.5] and [0.75] of jitter_test.go. *)
Definition f0_25 : float64 := math.Ldexp (of_Z 1) (-2).
Definition f0_5 : float64 := math.Ldexp (of_Z 1) (-1).
Definition f0_75 : float64 := math.Ldexp (of_Z 3) (-2).

Definition N : Z := 3.

(** [cycler := retry.NewCycler(backoff.Constant(1 * time.Millisecond))];
    [Constant] does not panic on this argument. *)
Definition cycler : retry.Cycler World E :=
  retry.NewCycler (clock 0) (backoff.constant (1 * time.Millisecond)).

(** The attempt of [TestCycler_Try]. *)
Definition attempt_Try : retry.AttemptFunc World E :=
  fun n w => if n <? N then (Some ErrTest, w) else (None, w).

(** The attempt of [TestCycler_TryWithContext]. *)
Definition attempt_TryWithContext : retry.AttemptFunc World E :=
  fun n w =>
    if n <? N then (Some ErrTest, w)
    else if N <? n then (None, w)
    else (Some ErrTest, cancel w).

(** The handler and the attempt of [TestCycler_OnError]. *)
Definition handler_OnError : retry.ErrorHandlerFunc World E :=
  fun n delay err w =>
    match err with
    | Some (retry.OtherError test) =>
        if (n <=? N) && (n =? i w) && (delay =? 1 * time.Millisecond)
        then {| cancelled := cancelled w; i := i w + 1 |}
        else w
    | _ => w
    end.

Definition attempt_OnError : retry.AttemptFunc World E :=
  fun n w => if n =? N then (None, w) else (Some ErrTest, w).

(** The attempt of [TestCycler_Try_ExitError]. *)
Definition attempt_ExitError : retry.AttemptFunc World E :=
  fun n w =>
    if n <? N then (Some ErrTest, w)
    else if N <? n then (None, w)
    else (retry.ForceExit (Some ErrTest), w).

(** An attempt that always fails, and one that cancels the context before
    it fails. *)
Definition attempt_fail : retry.AttemptFunc World E :=
  fun n w => (Some ErrTest, w).

Definition attempt_cancel_fail : retry.AttemptFunc World E :=
  fun n w => (Some ErrTest, cancel w).

Definition w0 : World := {| cancelled := false; i := 1 |}.

(** [const D = 1 * time.Millisecond] *)
Definition D : time.Duration := 1 * time.Millisecond.

(** The cycler of [TestCycler_OnError]: a constant millisecond and one
    handler. *)
Definition observed : retry.Cycler World E :=
  retry.OnError cycler handler_OnError.

(** The delays of a strategy for the attempts [ns] of a cycle started at
    time 0, as the tests of package [backoff] sample them. *)
Definition delays (st : backoff.Strategy unit) (ns : list Z)
    : list time.Duration :=
  map (fun n => fst (backoff.Delay Pow st n 0 tt)) ns.

End retry_test.

(** * Properties of package [backoff] *)

Section BackoffFacts.
Import Float64.

Variable W : Type.
Variable Pow : float64 -> float64 -> float64.

Lemma eqb_zero_inv (x : float64) :
  eqb x (of_Z 0) = true -> exists s, x = S754_zero s.
Proof.
  destruct x as [s | s | | s m e]; cbn; try discriminate.
  - intros _. now exists s.
  - destruct s; discriminate.
  - destruct s; discriminate.
Qed.

(** [t.Sub(u)] saturates, which a comparison with a limit that is itself a
    duration does not see. *)
Lemma Sub_ge_iff (t u : time.Time) (lim : time.Duration) :
  time.minDuration < lim <= time.maxDuration ->
  (time.Sub t u >=? lim) = (t - u >=? lim).
Proof.
  unfold time.Sub, time.minDuration, time.maxDuration, Int64.min, Int64.max.
  intros [Hlo Hhi].
  destruct (Z.ltb_spec (t - u) (- 2 ^ 63));
    [| destruct (Z.ltb_spec (2 ^ 63 - 1) (t - u))];
    rewrite !Z.geb_leb;
    repeat match goal with
    | |- context [?a <=? ?b] => destruct (Z.leb_spec a b)
    end; try reflexivity; lia.
Qed.

(** C8.  A decorator constructed with a disabling parameter is the inner
    strategy itself: [Cap] with [max <= 0], [Limit] with [n < 1],
    [Timeout] with [limit <= 0] and [Jitter] with [spread == 0] allocate no
    wrapper. *)
Theorem disabled_decorator_is_inner (s : backoff.Strategy W) :
  (forall max, max <= 0 -> backoff.Cap s max = s) /\
  (forall n, n < 1 -> backoff.Limit s n = s) /\
  (forall lim clock, lim <= 0 -> backoff.Timeout s lim clock = s) /\
  (forall spread random,
     eqb spread (of_Z 0) = true ->
     backoff.Jitter s spread random = Returns s).
Proof.
  repeat split.
  - intros max H. unfold backoff.Cap.
    destruct (Z.leb_spec max 0); [reflexivity | lia].
  - intros n H. unfold backoff.Limit.
    destruct (Z.ltb_spec n 1); [reflexivity | lia].
  - intros lim clock H. unfold backoff.Timeout.
    destruct (Z.leb_spec lim 0); [reflexivity | lia].
  - intros spread random H. unfold backoff.Jitter. rewrite H.
    destruct (eqb_zero_inv _ H) as [sg ->]. reflexivity.
Qed.

(** With an enabling parameter the same constructors do allocate a
    wrapper, which differs from the inner strategy. *)
Lemma enabled_decorator_wraps (s : backoff.Strategy W) :
  (forall max, 0 < max -> backoff.Cap s max = backoff.cap s max) /\
  (forall n, 1 <= n -> backoff.Limit s n = backoff.limit s n) /\
  (forall lim clock,
     0 < lim -> backoff.Timeout s lim clock = backoff.timeout s clock lim).
Proof.
  repeat split.
  - intros max H. unfold backoff.Cap.
    destruct (Z.leb_spec max 0); [lia | reflexivity].
  - intros n H. unfold backoff.Limit.
    destruct (Z.ltb_spec n 1); [lia | reflexivity].
  - intros lim clock H. unfold backoff.Timeout.
    destruct (Z.leb_spec lim 0); [lia | reflexivity].
Qed.

(** C6.  For a limit [lim > 0], a clock that reads [now] and a cycle started
    at [start], the strategy built by [Timeout] returns [Exit] when
    [now - start >= lim] (the boundary included) without asking the inner
    strategy, and otherwise returns what the inner strategy returns for
    [(n, start)]; so it exits just when the time is up or the inner strategy
    exits. *)
Theorem Timeout_Delay_spec (s : backoff.Strategy W) (lim : time.Duration)
    (clock : backoff.Clock W) (n : Z) (start : time.Time) (w : W) :
  0 < lim <= time.maxDuration ->
  1 <= n ->
  let now := fst (clock w) in
  let w1 := snd (clock w) in
  let timed := backoff.Delay Pow (backoff.Timeout s lim clock) n start w in
  (lim <= now - start -> timed = (backoff.Exit, w1)) /\
  (now - start < lim -> timed = backoff.Delay Pow s n start w1) /\
  (fst timed = backoff.Exit <->
   lim <= now - start \/ fst (backoff.Delay Pow s n start w1) = backoff.Exit).
Proof.
  intros Hlim Hn now w1 timed. subst timed.
  destruct (enabled_decorator_wraps s) as (_ & _ & Hwrap).
  rewrite Hwrap by lia. cbn [backoff.Delay].
  subst now w1. destruct (clock w) as [now w1]. cbn [fst snd].
  rewrite Sub_ge_iff by (unfold time.minDuration, Int64.min; lia).
  rewrite Z.geb_leb.
  destruct (Z.leb_spec lim (now - start)) as [Hup | Hin].
  - split; [reflexivity |]. split; [lia |].
    split; [now left | reflexivity].
  - split; [lia |]. split; [reflexivity |].
    split; [now right | intros [Hup | Hexit]; [lia | exact Hexit]].
Qed.

End BackoffFacts.

(** The four disabling parameters at work on the strategy of the tests. *)
Lemma disabled_decorator_is_inner_witness :
  let s : backoff.Strategy unit := backoff.constant (1 * time.Second) in
  backoff.Cap s 0 = s /\ backoff.Limit s 0 = s /\
  backoff.Timeout s 0 (retry_test.clock 0) = s /\
  backoff.Jitter s (Float64.of_Z 0) (retry_test.random (Float64.of_Z 0))
  = Returns s.
Proof.
  intros s.
  destruct (disabled_decorator_is_inner unit s) as (Hc & Hl & Ht & Hj).
  split; [| split; [| split]].
  - apply Hc. lia.
  - apply Hl. lia.
  - apply Ht. lia.
  - apply Hj. reflexivity.
Defined.

(** Scenario F: [timeout(constant(1s), 2s, clock)] when exactly 2s have
    elapsed. *)
Lemma Timeout_Delay_spec_witness :
  backoff.Delay retry_test.Pow
    (backoff.Timeout (backoff.constant (1 * time.Second))
       (2 * time.Second) (retry_test.clock (2 * time.Second))) 1 0 tt
  = (backoff.Exit, tt).
Proof.
  destruct (Timeout_Delay_spec unit retry_test.Pow
              (backoff.constant (1 * time.Second)) (2 * time.Second)
              (retry_test.clock (2 * time.Second)) 1 0 tt) as [Hup _].
  - vm_compute. split; [reflexivity | discriminate].
  - lia.
  - apply Hup. vm_compute. discriminate.
Defined.

(** * Properties of the retry cycle *)

Section RetryFacts.
Import retry.

Variables W E : Type.
Variable race : Context W E -> time.Duration -> W -> Wake * W.
Variable Pow : Float64.float64 -> Float64.float64 -> Float64.float64.
Variable c : Cycler W E.
Variable ctx : Context W E.
Variable attempt : AttemptFunc W E.

Ltac run_M :=
  cbv beta iota zeta delta
    [bind ret emit call_attempt call_Delay call_Err select set_timer
     call_clock].

Lemma notify_spec (hs : list (ErrorHandlerFunc W E)) (i : nat) (n : Z)
    (delay : time.Duration) (err : option (error E)) (w : W) :
  notify hs i n delay err w
  = (tt, notified hs n delay err w,
     map (fun k => EvHandler k n delay err) (seq i (length hs))).
Proof.
  revert i w. induction hs as [| h hs IH]; intros i w.
  - reflexivity.
  - cbn [notify notified fold_left length seq map]. unfold bind.
    rewrite IH. reflexivity.
Qed.

(** The four ways through the body of the loop. *)

Lemma iteration_success (start : time.Time) (n : Z) (t : bool) (w w1 : W) :
  attempt (Int64.add n 1) w = (None, w1) ->
  iteration race Pow c ctx attempt start n t w
  = ((Returned None, Int64.add n 1, t), w1, [EvAttempt (Int64.add n 1) None]).
Proof.
  intros Ha. unfold iteration. run_M. rewrite Ha. reflexivity.
Qed.

Lemma iteration_ExitError (start : time.Time) (n : Z) (t : bool) (w w1 : W)
    (cause : option (error E)) :
  attempt (Int64.add n 1) w = (Some (ExitError cause), w1) ->
  iteration race Pow c ctx attempt start n t w
  = ((Returned cause, Int64.add n 1, t), w1,
     [EvAttempt (Int64.add n 1) (Some (ExitError cause))]).
Proof.
  intros Ha. unfold iteration. run_M. rewrite Ha. reflexivity.
Qed.

Lemma iteration_Exit (start : time.Time) (n : Z) (t : bool) (w w1 w2 : W)
    (e : E) :
  attempt (Int64.add n 1) w = (Some (OtherError e), w1) ->
  backoff.Delay Pow (strategy c) (Int64.add n 1) start w1
  = (backoff.Exit, w2) ->
  iteration race Pow c ctx attempt start n t w
  = ((Returned (match Err ctx w2 with
                | Some ce => Some ce
                | None => Some (OtherError e)
                end), Int64.add n 1, t), w2,
     [EvAttempt (Int64.add n 1) (Some (OtherError e));
      EvDelay (Int64.add n 1) start backoff.Exit;
      EvCtxErr (Err ctx w2)]).
Proof.
  intros Ha Hd. unfold iteration. run_M. rewrite Ha, Hd. cbn.
  destruct (Err ctx w2); reflexivity.
Qed.

Lemma iteration_retry (start : time.Time) (n : Z) (t : bool)
    (w w1 w2 w4 : W) (e : E) (delay : time.Duration) (wake : Wake) :
  let n' := Int64.add n 1 in
  let err := Some (OtherError e) in
  attempt n' w = (err, w1) ->
  backoff.Delay Pow (strategy c) n' start w1 = (delay, w2) ->
  delay <> backoff.Exit ->
  race ctx delay (notified (handlers c) n' delay err w2) = (wake, w4) ->
  iteration race Pow c ctx attempt start n t w
  = ((match wake with
      | CtxDone => Returned (Err ctx w4)
      | TimerFired => Running
      end, n', true), w4,
     [EvAttempt n' err; EvDelay n' start delay]
     ++ handler_calls (length (handlers c)) n' delay err
     ++ [timer_set t delay; EvSelect wake]
     ++ match wake with
        | CtxDone => [EvCtxErr (Err ctx w4)]
        | TimerFired => []
        end).
Proof.
  intros n' err Ha Hd Hne Hr. subst n' err. unfold iteration. run_M.
  rewrite Ha. run_M. rewrite Hd.
  destruct (Z.eqb_spec delay backoff.Exit) as [Heq | _]; [contradiction |].
  rewrite notify_spec. run_M. rewrite Hr.
  unfold handler_calls, timer_set.
  destruct wake; cbn; rewrite ?app_nil_r, <- ?app_assoc; reflexivity.
Qed.

(** Fuel: a bound of [a + b] iterations is a bound of [a] followed, if the
    loop still runs, by a bound of [b]. *)
Lemma loop_add (start : time.Time) (a b : nat) (n : Z) (t : bool) (w : W) :
  loop race Pow c ctx attempt start (a + b) n t w
  = match loop race Pow c ctx attempt start a n t w with
    | ((Running, n', t'), w', tr) =>
        let '(x, w'', tr') := loop race Pow c ctx attempt start b n' t' w' in
        (x, w'', tr ++ tr')
    | other => other
    end.
Proof.
  revert n t w. induction a as [| a IH]; intros n t w.
  - cbn. destruct (loop race Pow c ctx attempt start b n t w) as [[x w''] tr'].
    reflexivity.
  - cbn [Nat.add loop]. unfold bind.
    destruct (iteration race Pow c ctx attempt start n t w)
      as [[[[[r | ] n'] t'] w1] tr1] eqn:Hit.
    + cbn. rewrite app_nil_r. reflexivity.
    + rewrite IH.
      destruct (loop race Pow c ctx attempt start a n' t' w1)
        as [[[[[r | ] n''] t''] w2] tr2]; cbn.
      * reflexivity.
      * destruct (loop race Pow c ctx attempt start b n'' t'' w2)
          as [[x w3] tr3].
        rewrite app_assoc. reflexivity.
Qed.

Lemma loop_one (start : time.Time) (fuel : nat) (n : Z) (t : bool) (w : W) :
  loop race Pow c ctx attempt start (S fuel) n t w
  = match iteration race Pow c ctx attempt start n t w with
    | ((Running, n', t'), w', tr) =>
        let '(x, w'', tr') :=
          loop race Pow c ctx attempt start fuel n' t' w' in
        (x, w'', tr ++ tr')
    | ((Returned r, n', t'), w', tr) => ((Returned r, n', t'), w', tr ++ [])
    end.
Proof.
  cbn [loop]. unfold bind.
  destruct (iteration race Pow c ctx attempt start n t w)
    as [[[[[r | ] n'] t'] w1] tr1]; reflexivity.
Qed.

(** A run that stands at the head of the loop and whose next iteration
    returns [r] returns [r], whatever the bound beyond. *)
Lemma TryWithContext_returns (w : W) (k : nat) (start : time.Time) (n : Z)
    (t : bool) (w' : W) (tr : list (Event E)) (r : option (error E))
    (n' : Z) (t' : bool) (w'' : W) (tr' : list (Event E)) :
  reaches race Pow c ctx attempt w k start n t w' tr ->
  iteration race Pow c ctx attempt start n t w'
  = ((Returned r, n', t'), w'', tr') ->
  forall extra,
    TryWithContext race Pow c ctx attempt (k + S extra) w
    = (Returned r, w'', tr ++ tr' ++ timer_stopped t').
Proof.
  intros (w0 & tr0 & Hc & Hl & ->) Hit extra.
  unfold TryWithContext, bind, call_clock. rewrite Hc.
  rewrite loop_add, Hl, loop_one, Hit. cbn.
  rewrite app_nil_r.
  destruct t'; cbn; rewrite ?app_nil_r, <- ?app_assoc; reflexivity.
Qed.

(** A run that stands at the head of the loop and whose next iteration
    goes on stands at the head of the loop again. *)
Lemma reaches_next (w : W) (k : nat) (start : time.Time) (n : Z)
    (t : bool) (w' : W) (tr : list (Event E))
    (n' : Z) (t' : bool) (w'' : W) (tr' : list (Event E)) :
  reaches race Pow c ctx attempt w k start n t w' tr ->
  iteration race Pow c ctx attempt start n t w'
  = ((Running, n', t'), w'', tr') ->
  reaches race Pow c ctx attempt w (k + 1) start n' t' w'' (tr ++ tr').
Proof.
  intros (w0 & tr0 & Hc & Hl & ->) Hit.
  exists w0, (tr0 ++ tr'). repeat split; try assumption.
  rewrite loop_add, Hl, loop_one, Hit. cbn. rewrite app_nil_r. reflexivity.
Qed.

Lemma reaches_start (w : W) :
  reaches race Pow c ctx attempt w 0 (fst (Clock c w)) 0 false
    (snd (Clock c w)) [EvClock (fst (Clock c w))].
Proof.
  exists (snd (Clock c w)), []. repeat split.
  destruct (Clock c w); reflexivity.
Qed.

(** The log of a run only grows with the bound. *)
Lemma TryWithContext_extends (w : W) (k : nat) (start : time.Time) (n : Z)
    (t : bool) (w' : W) (tr : list (Event E)) (extra : nat) :
  reaches race Pow c ctx attempt w k start n t w' tr ->
  exists rest,
    snd (TryWithContext race Pow c ctx attempt (k + extra) w) = tr ++ rest.
Proof.
  intros (w0 & tr0 & Hc & Hl & ->).
  unfold TryWithContext, bind, call_clock. rewrite Hc.
  rewrite loop_add, Hl.
  destruct (loop race Pow c ctx attempt start extra n t w')
    as [[x w2] tr2].
  destruct (deferred x w2) as [[r w3] tr3].
  cbn. exists (tr2 ++ tr3). rewrite <- app_assoc. reflexivity.
Qed.


Lemma bind_trace (A B : Type) (m : M W E A) (f : A -> M W E B) (w : W) :
  snd (bind m f w)
  = snd (m w) ++ snd (f (fst (fst (m w))) (snd (fst (m w)))).
Proof.
  unfold bind. destruct (m w) as [[a w1] t1]. cbn [fst snd].
  destruct (f a w1) as [[b w2] t2]. reflexivity.
Qed.

(** Every pass through the body of the loop starts by invoking the attempt
    with the incremented count. *)
Lemma iteration_starts_with_attempt (start : time.Time) (n : Z) (t : bool)
    (w : W) :
  exists rest,
    snd (iteration race Pow c ctx attempt start n t w)
    = EvAttempt (Int64.add n 1) (fst (attempt (Int64.add n 1) w)) :: rest.
Proof.
  unfold iteration. rewrite bind_trace. unfold call_attempt at 1.
  destruct (attempt (Int64.add n 1) w) as [err w1]. cbn [fst snd].
  eexists. reflexivity.
Qed.

Lemma TryWithContext_first_attempt (w : W) (fuel : nat) :
  exists rest,
    snd (TryWithContext race Pow c ctx attempt (S fuel) w)
    = EvClock (fst (Clock c w))
      :: EvAttempt 1 (fst (attempt 1 (snd (Clock c w)))) :: rest.
Proof.
  unfold TryWithContext, bind at 1, call_clock.
  destruct (Clock c w) as [start w0]. cbn [fst snd].
  unfold bind. rewrite loop_one.
  destruct (iteration_starts_with_attempt start 0 false w0) as [rest Hrest].
  change (Int64.add 0 1) with 1 in Hrest.
  destruct (iteration race Pow c ctx attempt start 0 false w0)
    as [[[[[r | ] n'] t'] w1] tr1]; cbn [snd] in Hrest; subst tr1.
  - destruct (deferred (Returned r, n', t') w1) as [[x w2] tr2].
    cbn. eexists. reflexivity.
  - destruct (loop race Pow c ctx attempt start fuel n' t' w1)
      as [[x w2] tr2].
    destruct (deferred x w2) as [[y w3] tr3].
    cbn. eexists. reflexivity.
Qed.

Lemma TryWithContext_zero (w : W) :
  fst (fst (TryWithContext race Pow c ctx attempt 0 w)) = Running.
Proof.
  unfold TryWithContext, bind, call_clock.
  destruct (Clock c w) as [start w0]. reflexivity.
Qed.

(** C1.  When the strategy returns [Exit] for the attempt that just failed,
    the run returns at once: with the error of the context if the context
    is signalled at that moment, and otherwise with the error that the
    attempt returned.  No handler is called and nothing is waited for. *)
Theorem Exit_returns_ctx_error_else_attempt_error (w : W) (k : nat)
    (start : time.Time) (n : Z) (t : bool) (w' : W) (tr : list (Event E))
    (e : E) (w1 w2 : W) :
  reaches race Pow c ctx attempt w k start n t w' tr ->
  attempt (Int64.add n 1) w' = (Some (OtherError e), w1) ->
  backoff.Delay Pow (strategy c) (Int64.add n 1) start w1
  = (backoff.Exit, w2) ->
  forall extra,
    TryWithContext race Pow c ctx attempt (k + S extra) w
    = (Returned (match Err ctx w2 with
                 | Some ce => Some ce
                 | None => Some (OtherError e)
                 end),
       w2,
       tr ++ [EvAttempt (Int64.add n 1) (Some (OtherError e));
              EvDelay (Int64.add n 1) start backoff.Exit;
              EvCtxErr (Err ctx w2)]
          ++ timer_stopped t).
Proof.
  intros Hreach Ha Hd extra.
  eapply TryWithContext_returns; [exact Hreach |].
  eapply iteration_Exit; eassumption.
Qed.

(** C2.  When the attempt returns an [ExitError], the run returns exactly
    the wrapped cause at once: the strategy is not asked for a delay and
    no handler is called for that attempt. *)
Theorem ExitError_returns_cause_at_once (w : W) (k : nat)
    (start : time.Time) (n : Z) (t : bool) (w' : W) (tr : list (Event E))
    (cause : option (error E)) (w1 : W) :
  reaches race Pow c ctx attempt w k start n t w' tr ->
  attempt (Int64.add n 1) w' = (Some (ExitError cause), w1) ->
  forall extra,
    TryWithContext race Pow c ctx attempt (k + S extra) w
    = (Returned cause, w1,
       tr ++ [EvAttempt (Int64.add n 1) (Some (ExitError cause))]
          ++ timer_stopped t).
Proof.
  intros Hreach Ha extra.
  eapply TryWithContext_returns; [exact Hreach |].
  eapply iteration_ExitError; exact Ha.
Qed.

(** C4.  For a failed attempt for which the strategy returns a delay other
    than [Exit], every registered handler is called with the attempt's
    number, that delay and the attempt's error, in registration order,
    after the strategy was asked and before the timer is set and waited
    for; the wait happens in the world that the handlers left.  For an
    attempt that succeeds, returns an [ExitError] or makes the strategy
    return [Exit], no handler is called. *)
Theorem handlers_called_before_wait (w : W) (k : nat)
    (start : time.Time) (n : Z) (t : bool) (w' : W) (tr : list (Event E))
    (err : option (error E)) (w1 : W) :
  reaches race Pow c ctx attempt w k start n t w' tr ->
  attempt (Int64.add n 1) w' = (err, w1) ->
  let n' := Int64.add n 1 in
  (forall e delay w2 wake w4,
     err = Some (OtherError e) ->
     backoff.Delay Pow (strategy c) n' start w1 = (delay, w2) ->
     delay <> backoff.Exit ->
     race ctx delay (notified (handlers c) n' delay err w2) = (wake, w4) ->
     let block :=
       [EvAttempt n' err; EvDelay n' start delay]
       ++ handler_calls (length (handlers c)) n' delay err
       ++ [timer_set t delay; EvSelect wake] in
     match wake with
     | TimerFired =>
         reaches race Pow c ctx attempt w (k + 1) start n' true w4
           (tr ++ block)
     | CtxDone =>
         forall extra,
           TryWithContext race Pow c ctx attempt (k + S extra) w
           = (Returned (Err ctx w4), w4,
              tr ++ block ++ [EvCtxErr (Err ctx w4); EvStop])
     end) /\
  (err = None \/
   (exists cause, err = Some (ExitError cause)) \/
   (exists e w2, err = Some (OtherError e) /\
      backoff.Delay Pow (strategy c) n' start w1 = (backoff.Exit, w2)) ->
   forall extra,
     fst (fst (TryWithContext race Pow c ctx attempt (k + S extra) w))
     <> Running /\
     filter is_handler_call
       (snd (TryWithContext race Pow c ctx attempt (k + S extra) w))
     = filter is_handler_call tr).
Proof.
  intros Hreach Ha n'. split.
  - intros e delay w2 wake w4 -> Hd Hne Hr block.
    pose proof (iteration_retry start n t w' w1 w2 w4 e delay wake
                  Ha Hd Hne Hr) as Hit.
    destruct wake.
    + intros extra.
      rewrite (TryWithContext_returns _ _ _ _ _ _ _ _ _ _ _ _ Hreach Hit).
      subst block. cbn [timer_stopped].
      repeat rewrite <- app_assoc. reflexivity.
    + pose proof (reaches_next _ _ _ _ _ _ _ _ _ _ _ Hreach Hit) as Hn.
      subst block. rewrite app_nil_r in Hn. exact Hn.
  - intros Hcase extra.
    assert (forall r n1 t1 w2 tr1,
              iteration race Pow c ctx attempt start n t w'
              = ((Returned r, n1, t1), w2, tr1) ->
              filter is_handler_call tr1 = [] ->
              fst (fst (TryWithContext race Pow c ctx attempt
                          (k + S extra) w)) <> Running /\
              filter is_handler_call
                (snd (TryWithContext race Pow c ctx attempt (k + S extra) w))
              = filter is_handler_call tr) as Hdone.
    { intros r n1 t1 w2 tr1 Hit Hnil.
      rewrite (TryWithContext_returns _ _ _ _ _ _ _ _ _ _ _ _ Hreach Hit).
      cbn [fst snd]. split; [discriminate |].
      rewrite !filter_app, Hnil.
      destruct t1; cbn; rewrite app_nil_r; reflexivity. }
    destruct Hcase as [-> | [[cause ->] | (e & w2 & -> & Hd)]].
    + eapply Hdone; [eapply iteration_success; exact Ha | reflexivity].
    + eapply Hdone; [eapply iteration_ExitError; exact Ha | reflexivity].
    + eapply Hdone; [eapply iteration_Exit; eassumption | reflexivity].
Qed.

(** C10.  When the context is already signalled at the moment an attempt
    fails with an ordinary error and the strategy returns a delay other
    than [Exit], every registered handler is still called for that
    attempt, in registration order: the context is not consulted between
    the attempt and the handlers, and only the [select] that follows can
    see the cancellation.  This holds whichever channel the [select]
    takes.  When it takes the channel of the context, the run returns the
    error of the context; when it takes the timer although the context is
    signalled, the run goes on to the next attempt, the handlers having
    been called all the same. *)
Theorem handlers_called_before_cancellation_is_seen (w : W) (k : nat)
    (start : time.Time) (n : Z) (t : bool) (w' : W) (tr : list (Event E))
    (e : E) (ce : error E) (w1 w2 : W) (delay : time.Duration) :
  let n' := Int64.add n 1 in
  let err := Some (OtherError e) in
  reaches race Pow c ctx attempt w k start n t w' tr ->
  attempt n' w' = (err, w1) ->
  Err ctx w1 = Some ce ->
  backoff.Delay Pow (strategy c) n' start w1 = (delay, w2) ->
  delay <> backoff.Exit ->
  let woken := race ctx delay (notified (handlers c) n' delay err w2) in
  let block :=
    [EvAttempt n' err; EvDelay n' start delay]
    ++ handler_calls (length (handlers c)) n' delay err
    ++ [timer_set t delay; EvSelect (fst woken)] in
  (forall extra,
   exists rest,
     snd (TryWithContext race Pow c ctx attempt (k + S extra) w)
     = tr ++ block ++ rest) /\
  match fst woken with
  | CtxDone =>
      forall extra,
        TryWithContext race Pow c ctx attempt (k + S extra) w
        = (Returned (Err ctx (snd woken)), snd woken,
           tr ++ block ++ [EvCtxErr (Err ctx (snd woken)); EvStop])
  | TimerFired =>
      reaches race Pow c ctx attempt w (k + 1) start n' true (snd woken)
        (tr ++ block)
  end.
Proof.
  intros n' err Hreach Ha _ Hd Hne woken block.
  destruct woken as [wake w4] eqn:Hr. subst woken. cbn [fst snd] in *.
  pose proof (iteration_retry start n t w' w1 w2 w4 e delay wake
                Ha Hd Hne Hr) as Hit.
  fold n' err in Hit.
  destruct wake.
  - assert (forall extra,
              TryWithContext race Pow c ctx attempt (k + S extra) w
              = (Returned (Err ctx w4), w4,
                 tr ++ block ++ [EvCtxErr (Err ctx w4); EvStop]))
      as Hrun.
    { intros extra.
      rewrite (TryWithContext_returns _ _ _ _ _ _ _ _ _ _ _ _ Hreach Hit).
      subst block. cbn [timer_stopped].
      repeat rewrite <- app_assoc. reflexivity. }
    split; [| exact Hrun].
    intros extra. rewrite Hrun. cbn [snd]. eexists. reflexivity.
  - pose proof (reaches_next _ _ _ _ _ _ _ _ _ _ _ Hreach Hit) as Hn.
    assert (reaches race Pow c ctx attempt w (k + 1) start n' true w4
              (tr ++ block)) as Hnext.
    { subst block. rewrite app_nil_r in Hn. exact Hn. }
    split; [| exact Hnext].
    intros extra.
    destruct (TryWithContext_extends _ _ _ _ _ _ _ extra Hnext)
      as [rest Hrest].
    replace (k + S extra)%nat with (k + 1 + extra)%nat by lia.
    exists rest. rewrite Hrest. now rewrite <- app_assoc.
Qed.

End RetryFacts.

(** C9.  [Try] and [TryWithContext] invoke the attempt before anything
    else but reading the clock, whatever the cycler, the attempt and the
    context, a context that is signalled from the start included: a run of
    at least one iteration begins with the first attempt, and a run that
    has returned has made it. *)
Theorem attempt_invoked_at_least_once (W E : Type)
    (race : retry.Context W E -> time.Duration -> W -> retry.Wake * W)
    (Pow : Float64.float64 -> Float64.float64 -> Float64.float64)
    (c : retry.Cycler W E) (attempt : retry.AttemptFunc W E) (w : W) :
  let first :=
    [retry.EvClock (fst (retry.Clock c w));
     retry.EvAttempt 1 (fst (attempt 1 (snd (retry.Clock c w))))] in
  (forall ctx fuel,
     (exists rest,
        snd (retry.TryWithContext race Pow c ctx attempt (S fuel) w)
        = first ++ rest) /\
     (forall r w' tr,
        retry.TryWithContext race Pow c ctx attempt fuel w
        = (retry.Returned r, w', tr) ->
        exists rest, tr = first ++ rest)) /\
  (forall fuel,
     (exists rest,
        snd (retry.Try race Pow c attempt (S fuel) w) = first ++ rest) /\
     (forall r w' tr,
        retry.Try race Pow c attempt fuel w = (retry.Returned r, w', tr) ->
        exists rest, tr = first ++ rest)).
Proof.
  intros first.
  assert (forall ctx fuel,
     (exists rest,
        snd (retry.TryWithContext race Pow c ctx attempt (S fuel) w)
        = first ++ rest) /\
     (forall r w' tr,
        retry.TryWithContext race Pow c ctx attempt fuel w
        = (retry.Returned r, w', tr) ->
        exists rest, tr = first ++ rest)) as H.
  { intros ctx fuel. split.
    - apply TryWithContext_first_attempt.
    - intros r w' tr Hrun. destruct fuel as [| fuel].
      + pose proof (TryWithContext_zero W E race Pow c ctx attempt w) as Hz.
        rewrite Hrun in Hz. discriminate.
      + destruct (TryWithContext_first_attempt W E race Pow c ctx attempt
                    w fuel) as [rest Hrest].
        rewrite Hrun in Hrest. now exists rest. }
  split; [exact H |].
  intros fuel. apply (H retry.Background fuel).
Qed.

(** ** The retry cycle on the fixtures of the tests *)

Section RetryWitnesses.
Import retry retry_test.

Ltac reach_by_eval :=
  eexists; eexists; split;
  [reflexivity | split; [vm_compute; reflexivity | reflexivity]].

(** A cycle limited to three attempts whose third attempt cancels the
    context and fails: the strategy returns [Exit] and the run returns the
    error of the context. *)
Lemma Exit_returns_ctx_error_else_attempt_error_witness :
  TryWithContext race Pow (Limit observed 3) ctx attempt_TryWithContext 3 w0
  = (Returned (Some (OtherError Canceled)),
     cancel {| cancelled := false; i := 3 |},
     [EvClock 0;
      EvAttempt 1 (Some ErrTest); EvDelay 1 0 D;
      EvHandler 0 1 D (Some ErrTest); EvNewTimer D; EvSelect TimerFired;
      EvAttempt 2 (Some ErrTest); EvDelay 2 0 D;
      EvHandler 0 2 D (Some ErrTest); EvReset D; EvSelect TimerFired;
      EvAttempt 3 (Some ErrTest); EvDelay 3 0 backoff.Exit;
      EvCtxErr (Some (OtherError Canceled)); EvStop]).
Proof.
  apply (Exit_returns_ctx_error_else_attempt_error World E race Pow
           (Limit observed 3) ctx attempt_TryWithContext w0 2 0 2 true
           {| cancelled := false; i := 3 |}
           [EvClock 0;
            EvAttempt 1 (Some ErrTest); EvDelay 1 0 D;
            EvHandler 0 1 D (Some ErrTest); EvNewTimer D;
            EvSelect TimerFired;
            EvAttempt 2 (Some ErrTest); EvDelay 2 0 D;
            EvHandler 0 2 D (Some ErrTest); EvReset D;
            EvSelect TimerFired]
           test (cancel {| cancelled := false; i := 3 |})
           (cancel {| cancelled := false; i := 3 |})).
  - reach_by_eval.
  - reflexivity.
  - reflexivity.
Defined.

(** [TestCycler_Try_ExitError]: the third attempt returns
    [ForceExit(ErrTest)] and the run returns [ErrTest] itself. *)
Lemma ExitError_returns_cause_at_once_witness :
  Try race Pow observed attempt_ExitError 3 w0
  = (Returned (Some ErrTest), {| cancelled := false; i := 3 |},
     [EvClock 0;
      EvAttempt 1 (Some ErrTest); EvDelay 1 0 D;
      EvHandler 0 1 D (Some ErrTest); EvNewTimer D; EvSelect TimerFired;
      EvAttempt 2 (Some ErrTest); EvDelay 2 0 D;
      EvHandler 0 2 D (Some ErrTest); EvReset D; EvSelect TimerFired;
      EvAttempt 3 (Some (ExitError (Some ErrTest))); EvStop]).
Proof.
  apply (ExitError_returns_cause_at_once World E race Pow observed
           Background attempt_ExitError w0 2 0 2 true
           {| cancelled := false; i := 3 |}
           [EvClock 0;
            EvAttempt 1 (Some ErrTest); EvDelay 1 0 D;
            EvHandler 0 1 D (Some ErrTest); EvNewTimer D;
            EvSelect TimerFired;
            EvAttempt 2 (Some ErrTest); EvDelay 2 0 D;
            EvHandler 0 2 D (Some ErrTest); EvReset D;
            EvSelect TimerFired]
           (Some ErrTest) {| cancelled := false; i := 3 |}).
  - reach_by_eval.
  - reflexivity.
Defined.

(** [TestCycler_OnError]: the handler is called for the first failed
    attempt, before the timer is set, and has counted it. *)
Lemma handlers_called_before_wait_witness :
  reaches race Pow observed Background attempt_OnError w0 1 0 1 true
    {| cancelled := false; i := 2 |}
    [EvClock 0;
     EvAttempt 1 (Some ErrTest); EvDelay 1 0 D;
     EvHandler 0 1 D (Some ErrTest); EvNewTimer D; EvSelect TimerFired].
Proof.
  destruct (handlers_called_before_wait World E race Pow observed
              Background attempt_OnError w0 0 0 0 false w0 [EvClock 0]
              (Some ErrTest) w0) as [Hretry _].
  - reach_by_eval.
  - reflexivity.
  - exact (Hretry test D w0 TimerFired {| cancelled := false; i := 2 |}
             eq_refl eq_refl ltac:(discriminate) eq_refl).
Defined.

(** A context that is cancelled before the run starts: the attempt is
    invoked all the same. *)
Lemma attempt_invoked_at_least_once_witness :
  exists rest,
    snd (TryWithContext race Pow observed ctx attempt_fail 5 (cancel w0))
    = [EvClock 0; EvAttempt 1 (Some ErrTest)] ++ rest.
Proof.
  destruct (attempt_invoked_at_least_once World E race Pow observed
              attempt_fail (cancel w0)) as [H _].
  destruct (H ctx 4%nat) as [Hrun _]. exact Hrun.
Defined.

(** The context is cancelled while the attempt fails; the handler is
    called before the [select] sees it. *)
Lemma handlers_called_before_cancellation_is_seen_witness :
  TryWithContext race Pow observed ctx attempt_cancel_fail 1 w0
  = (Returned (Some (OtherError Canceled)), {| cancelled := true; i := 2 |},
     [EvClock 0;
      EvAttempt 1 (Some ErrTest); EvDelay 1 0 D;
      EvHandler 0 1 D (Some ErrTest); EvNewTimer D; EvSelect CtxDone;
      EvCtxErr (Some (OtherError Canceled)); EvStop]).
Proof.
  destruct (handlers_called_before_cancellation_is_seen World E race Pow
              observed ctx attempt_cancel_fail w0 0 0 0 false w0 [EvClock 0]
              test (OtherError Canceled) (cancel w0) (cancel w0) D)
    as [_ Hrun].
  - reach_by_eval.
  - reflexivity.
  - reflexivity.
  - reflexivity.
  - discriminate.
  - exact (Hrun 0%nat).
Defined.

End RetryWitnesses.

(** * Properties of the float conversions *)

Section FloatFacts.
Import Float64.

Lemma digits2_pos_bound (m : positive) :
  Zpos m < 2 ^ Zpos (digits2_pos m).
Proof.
  induction m as [p IH | p IH |]; cbn [digits2_pos].
  - rewrite Pos2Z.inj_succ, Z.pow_succ_r by lia. lia.
  - rewrite Pos2Z.inj_succ, Z.pow_succ_r by lia. lia.
  - reflexivity.
Qed.

(** The mantissa of a valid float has at most 53 digits. *)
Lemma valid_mantissa_bound (s : bool) (m : positive) (e : Z) :
  valid (S754_finite s m e) = true -> Zpos m < 2 ^ 53.
Proof.
  unfold valid, valid_binary, bounded, canonical_mantissa, fexp, emin,
    prec, emax.
  intros H. apply andb_prop in H. destruct H as [H _].
  apply Z.eqb_eq in H.
  pose proof (digits2_pos_bound m) as Hd.
  assert (Zpos (digits2_pos m) <= 53) as Hle by lia.
  eapply Z.lt_le_trans; [exact Hd |].
  apply Z.pow_le_mono_r; lia.
Qed.

Lemma pow_pos_Z (k : positive) : Zpos (2 ^ k)%positive = 2 ^ Zpos k.
Proof. apply Pos2Z.inj_pow. Qed.

Lemma to_Q_negative (m : positive) (e : Z) :
  (to_Q (S754_finite true m e) < 0)%Q.
Proof.
  destruct e as [| p | p]; cbn [to_Q cond_Zopp]; unfold Qlt;
    cbn [Qnum Qden inject_Z].
  - lia.
  - pose proof (Z.pow_pos_nonneg 2 (Zpos p)). nia.
  - lia.
Qed.

Lemma to_Q_positive (m : positive) (e : Z) :
  (0 < to_Q (S754_finite false m e))%Q.
Proof.
  destruct e as [| p | p]; cbn [to_Q cond_Zopp]; unfold Qlt;
    cbn [Qnum Qden inject_Z].
  - lia.
  - pose proof (Z.pow_pos_nonneg 2 (Zpos p)). nia.
  - lia.
Qed.

(** [int64(x)] is the floor of a finite [x] whose value lies in
    [[0, 2^63)]. *)
Lemma to_int64_floor (x : float64) :
  is_finite x = true ->
  (0 <= to_Q x)%Q -> (to_Q x < inject_Z (2 ^ 63))%Q ->
  to_int64 x = Qfloor (to_Q x) /\ 0 <= to_int64 x <= Int64.max.
Proof.
  intros Hfin Hlo Hhi.
  assert (0 <= Qfloor (to_Q x) < 2 ^ 63) as Hrange.
  { split.
    - change 0 with (Qfloor 0). now apply Qfloor_resp_le.
    - apply Z.lt_nge. intros Hge.
      apply (Qlt_not_le _ _ Hhi).
      eapply Qle_trans; [| apply Qfloor_le].
      rewrite <- Zle_Qle. exact Hge. }
  assert (trunc x = Some (Qfloor (to_Q x))) as Htr.
  { destruct x as [s | s | | s m e]; try discriminate.
    - reflexivity.
    - destruct s.
      + exfalso. apply (Qle_not_lt _ _ Hlo). apply to_Q_negative.
      + destruct e as [| p | p]; cbn [trunc to_Q cond_Zopp].
        * now rewrite Qfloor_Z.
        * now rewrite Qfloor_Z.
        * cbn [Qfloor]. now rewrite pow_pos_Z. }
  unfold to_int64. rewrite Htr.
  unfold Int64.in_range, Int64.min, Int64.max.
  destruct (Z.leb_spec (- 2 ^ 63) (Qfloor (to_Q x))); [| lia].
  destruct (Z.leb_spec (Qfloor (to_Q x)) (2 ^ 63 - 1)); [| lia].
  cbn [andb]. lia.
Qed.

(** [int64(x)] is the integer indefinite value when [x] has outgrown the
    range. *)
Lemma to_int64_overflow (x : float64) :
  x = Inf false \/
  (is_finite x = true /\ (inject_Z (2 ^ 63) <= to_Q x)%Q) ->
  to_int64 x = Int64.min.
Proof.
  intros [-> | [Hfin Hge]]; [reflexivity |].
  assert (2 ^ 63 <= Qfloor (to_Q x)) as Hfl.
  { rewrite <- (Qfloor_Z (2 ^ 63)). now apply Qfloor_resp_le. }
  destruct x as [s | s | | s m e]; try discriminate.
  - cbn in Hfl. lia.
  - destruct s.
    + exfalso. apply (Qle_not_lt _ _ Hge).
      apply Qlt_le_trans with (y := 0%Q).
      * apply to_Q_negative.
      * unfold Qle; cbn; lia.
    + assert (trunc (S754_finite false m e)
              = Some (Qfloor (to_Q (S754_finite false m e)))) as Htr.
      { destruct e as [| p | p]; cbn [trunc to_Q cond_Zopp].
        - now rewrite Qfloor_Z.
        - now rewrite Qfloor_Z.
        - cbn [Qfloor]. now rewrite pow_pos_Z. }
      unfold to_int64. rewrite Htr.
      unfold Int64.in_range, Int64.min, Int64.max.
      destruct (Z.leb_spec (Qfloor (to_Q (S754_finite false m e)))
                  (2 ^ 63 - 1)); [lia |].
      now rewrite andb_false_r.
Qed.

Lemma SFcompare_finite_pos (m m' : positive) (e e' : Z) :
  SFcompare (S754_finite false m e) (S754_finite false m' e')
  = Some match e ?= e' with
         | Lt => Lt
         | Gt => Gt
         | Eq => (m ?= m')%positive
         end.
Proof. reflexivity. Qed.

Lemma of_Z_0 : of_Z 0 = S754_zero false.
Proof. reflexivity. Qed.

Lemma of_Z_1 : of_Z 1 = S754_finite false 4503599627370496 (-52).
Proof. vm_compute. reflexivity. Qed.

(** What the comparisons of [in_unit_interval] leave: a zero, or a positive
    float below one. *)
Lemma in_unit_interval_inv (x : float64) :
  in_unit_interval x ->
  (exists s, x = S754_zero s) \/
  (exists m e,
     x = S754_finite false m e /\ Zpos m < 2 ^ 53 /\
     (e < -52 \/ (e = -52 /\ (m < 4503599627370496)%positive))).
Proof.
  unfold in_unit_interval. rewrite of_Z_0, of_Z_1.
  intros (Hv & Hge & Hlt).
  destruct x as [s | s | | s m e].
  - left. now exists s.
  - destruct s; discriminate.
  - discriminate.
  - destruct s; [discriminate |].
    right. exists m, e. split; [reflexivity |].
    split; [exact (valid_mantissa_bound _ _ _ Hv) |].
    unfold ltb, SFltb in Hlt. rewrite SFcompare_finite_pos in Hlt.
    destruct (Z.compare_spec e (-52)) as [-> | He | He];
      [| left; exact He | discriminate].
    right. split; [reflexivity |].
    destruct (Pos.compare_spec m 4503599627370496);
      [discriminate | assumption | discriminate].
Qed.

(** A float that the language places in [[0,1)] has a value in [[0,1)]. *)
Lemma in_unit_interval_to_Q (x : float64) :
  in_unit_interval x -> (0 <= to_Q x)%Q /\ (to_Q x < 1)%Q.
Proof.
  intros H. destruct (in_unit_interval_inv x H)
    as [[s ->] | (m & e & -> & Hm & He)].
  - cbn. split; [apply Qle_refl | reflexivity].
  - split; [apply Qlt_le_weak, to_Q_positive |].
    destruct He as [He | [He Hlt]].
    + destruct e as [| p | p]; try discriminate He.
      unfold Qlt. cbn [to_Q cond_Zopp Qnum Qden]. rewrite pow_pos_Z.
      assert (2 ^ 53 <= 2 ^ Zpos p) by (apply Z.pow_le_mono_r; lia).
      lia.
    + subst e. unfold Qlt. cbn [to_Q cond_Zopp Qnum Qden].
      rewrite Z.mul_1_r, Z.mul_1_l. exact Hlt.
Qed.

(** The constructor accepts a spread in [[0,1)]. *)
Lemma in_unit_interval_accepted (x : float64) :
  in_unit_interval x ->
  ltb x (of_Z 0) || geb x (of_Z 1) = false.
Proof.
  intros H. destruct (in_unit_interval_inv x H)
    as [[s ->] | (m & e & -> & Hm & He)];
    rewrite of_Z_0, of_Z_1.
  - destruct s; reflexivity.
  - unfold ltb, geb, leb, SFltb, SFleb. rewrite SFcompare_finite_pos.
    cbn [SFcompare orb].
    destruct He as [He | [-> Hlt]].
    + destruct (Z.compare_spec (-52) e); [lia | lia | reflexivity].
    + rewrite Z.compare_refl, Pos.compare_antisym.
      unfold Pos.lt in Hlt. rewrite Hlt. reflexivity.
Qed.

Lemma eqb_one_inv (x : float64) : eqb x (of_Z 1) = true -> x = of_Z 1.
Proof.
  rewrite of_Z_1. unfold eqb, SFeqb.
  destruct x as [s | s | | s m e]; try discriminate.
  - destruct s; discriminate.
  - destruct s; [discriminate |].
    rewrite SFcompare_finite_pos.
    destruct (Z.compare_spec e (-52)) as [-> | |]; try discriminate.
    destruct (Pos.compare_spec m 4503599627370496) as [-> | |];
      try discriminate.
    reflexivity.
Qed.

End FloatFacts.

(** * Properties of the exponential strategy and of the jitter *)

Section ExponentialFacts.
Import Float64.

Variable W : Type.
Variable Pow : float64 -> float64 -> float64.

(** The attempt count less one does not wrap for a count that is at least
    one. *)
Lemma Int64_sub_1 (n : Z) :
  (1 <= n <= Int64.max)%Z -> Int64.sub n 1 = (n - 1)%Z.
Proof.
  unfold Int64.sub, Int64.wrap, Int64.max. intros H.
  rewrite Z.mod_small by lia. lia.
Qed.

Lemma exponential_Delay_eq (d : time.Duration) (m : float64) (n : Z)
    (start : time.Time) (w : W) :
  (1 <= n <= Int64.max)%Z ->
  backoff.Delay Pow (backoff.exponential d m) n start w
  = (to_int64 (mul (of_Z d) (Pow m (of_Z (n - 1)))), w).
Proof.
  intros Hn. cbn [backoff.Delay]. unfold backoff.exponential_Delay.
  now rewrite Int64_sub_1.
Qed.

(** C3, as amended.  [exponential.Delay] converts the float product
    [float64(d) * Pow(m, n-1)] to a duration without any guard.  When the
    product is finite and its value lies in [[0, 2^63)], the delay is that
    value rounded down: it is not negative and it is not [Exit].  When the
    product has outgrown the durations (it is [+Inf], or at least [2^63]),
    the delay is not clamped to the largest duration: it is the result of
    the conversion on an operand out of range, [-2^63], a negative
    duration. *)
Theorem Exponential_Delay_not_clamped (d : time.Duration) (m : float64)
    (n : Z) (start : time.Time) (w : W) :
  @backoff.Exponential W d m = Returns (backoff.exponential d m) ->
  (1 <= n <= Int64.max)%Z ->
  let p := mul (of_Z d) (Pow m (of_Z (n - 1))) in
  let delay := fst (backoff.Delay Pow (backoff.exponential d m) n start w) in
  (is_finite p = true ->
   (0 <= to_Q p)%Q -> (to_Q p < inject_Z (2 ^ 63))%Q ->
   delay = Qfloor (to_Q p) /\
   (0 <= delay <= time.maxDuration)%Z /\ delay <> backoff.Exit) /\
  (p = Inf false \/
   (is_finite p = true /\ (inject_Z (2 ^ 63) <= to_Q p)%Q) ->
   delay = time.minDuration /\
   (delay < 0)%Z /\ delay <> time.maxDuration).
Proof.
  intros _ Hn p delay. subst delay.
  rewrite exponential_Delay_eq by exact Hn. cbn [fst]. fold p.
  split.
  - intros Hfin Hlo Hhi.
    destruct (to_int64_floor p Hfin Hlo Hhi) as [Heq Hrange].
    split; [exact Heq |]. split; [exact Hrange |].
    unfold backoff.Exit. lia.
  - intros Hout. rewrite (to_int64_overflow p Hout).
    unfold time.minDuration, time.maxDuration, Int64.min, Int64.max.
    repeat split; lia.
Qed.

(** The constructor on its degenerate arguments. *)
Lemma Exponential_degenerate (d : time.Duration) (m : float64) :
  (0 <= d)%Z -> leb (of_Z 0) m = true ->
  ((d = 0%Z \/ eqb m (of_Z 0) = true) ->
   @backoff.Exponential W d m = backoff.Constant 0%Z) /\
  (eqb m (of_Z 1) = true ->
   @backoff.Exponential W d m = backoff.Constant d) /\
  ((0 < d)%Z -> eqb m (of_Z 0) = false -> eqb m (of_Z 1) = false ->
   @backoff.Exponential W d m = Returns (backoff.exponential d m)).
Proof.
  intros Hd Hm. unfold backoff.Exponential.
  destruct (Z.ltb_spec d 0) as [| _]; [lia |].
  assert (ltb m (of_Z 0) = false) as ->.
  { rewrite of_Z_0 in *. destruct m as [s | s | | s mm e];
      try reflexivity; try discriminate;
      destruct s; try reflexivity; discriminate. }
  repeat split.
  - intros [-> | ->]; [reflexivity | now rewrite orb_true_r].
  - intros H1. rewrite H1.
    rewrite (eqb_one_inv m H1).
    destruct (Z.eqb_spec d 0) as [-> | _]; reflexivity.
  - intros Hpos H0 H1. rewrite H0, H1.
    destruct (Z.eqb_spec d 0) as [| _]; [lia | reflexivity].
Qed.

(** C7, as amended.  The strategy that [Exponential] builds computes
    [time.Duration(float64(d) * Pow(m, float64(n-1)))].  Whenever that
    float product is computed without rounding and [d * m^(n-1)] is below
    [2^63], the delay is [d * m^(n-1)] rounded down to a whole duration: it
    is the formula itself only when that is a whole number.  With
    [math.Pow], [Exponential(1s, 2.0)] yields exactly [1s * 2^(n-1)] for
    every attempt from 1 to 34, so 1s, 2s, 4s and 8s for the attempts 1 to
    4.  The constructor returns [Constant(d)] when [m = 1] and
    [Constant(0)] when [d = 0] or [m = 0], and the exponential strategy
    itself on every other [d > 0] and [m > 0]. *)
Theorem Exponential_spec :
  (forall d m n start (w : W),
     (1 <= n <= Int64.max)%Z ->
     (0 <= d)%Z -> (0 <= to_Q m)%Q ->
     exactly (mul (of_Z d) (Pow m (of_Z (n - 1))))
       (inject_Z d * to_Q m ^ (n - 1))%Q ->
     (inject_Z d * to_Q m ^ (n - 1) < inject_Z (2 ^ 63))%Q ->
     let delay :=
       fst (backoff.Delay Pow (backoff.exponential d m) n start w) in
     delay = Qfloor (inject_Z d * to_Q m ^ (n - 1))%Q /\
     (inject_Z delay <= inject_Z d * to_Q m ^ (n - 1))%Q /\
     (inject_Z d * to_Q m ^ (n - 1) < inject_Z (delay + 1))%Q /\
     (0 <= delay <= time.maxDuration)%Z /\
     snd (backoff.Delay Pow (backoff.exponential d m) n start w) = w) /\
  (forall Exp Log n start (w : W),
     (1 <= n <= 34)%Z ->
     backoff.Delay (math.Pow Exp Log)
       (backoff.exponential (1 * time.Second) (of_Z 2)) n start w
     = (1 * time.Second * 2 ^ (n - 1), w)%Z) /\
  @backoff.Exponential W (1 * time.Second) (of_Z 2)
  = Returns (backoff.exponential (1 * time.Second) (of_Z 2)) /\
  (forall d m,
     (0 <= d)%Z -> leb (of_Z 0) m = true ->
     (eqb m (of_Z 1) = true ->
      @backoff.Exponential W d m = backoff.Constant d) /\
     ((d = 0%Z \/ eqb m (of_Z 0) = true) ->
      @backoff.Exponential W d m = backoff.Constant 0%Z) /\
     ((0 < d)%Z -> eqb m (of_Z 0) = false -> eqb m (of_Z 1) = false ->
      @backoff.Exponential W d m = Returns (backoff.exponential d m))).
Proof.
  split; [| split; [| split]].
  - intros d m n start w Hn Hd Hm [Hfin Hex] Hlt delay. subst delay.
    rewrite exponential_Delay_eq by exact Hn. cbn [fst snd].
    assert (0 <= inject_Z d * to_Q m ^ (n - 1))%Q as Hnonneg.
    { apply Qmult_le_0_compat.
      - unfold Qle. cbn. lia.
      - now apply Qpower_0_le. }
    destruct (to_int64_floor _ Hfin) as [Heq Hrange].
    + now rewrite Hex.
    + now rewrite Hex.
    + rewrite Heq. rewrite Heq in Hrange. rewrite Hex in *.
      split; [reflexivity |]. split; [apply Qfloor_le |].
      split; [apply Qlt_floor |]. split; [exact Hrange | reflexivity].
  - intros Exp Log n start w Hn. cbn [backoff.Delay]. f_equal.
    assert (forallb
              (fun n =>
                 backoff.exponential_Delay (math.Pow Exp Log)
                   (1 * time.Second) (of_Z 2) n
                 =? 1 * time.Second * 2 ^ (n - 1))%Z
              (map Z.of_nat (seq 1 34)) = true) as Hall
      by (vm_compute; reflexivity).
    rewrite forallb_forall in Hall. apply Z.eqb_eq. apply Hall.
    apply in_map_iff. exists (Z.to_nat n).
    split; [lia | apply in_seq; lia].
  - vm_compute. reflexivity.
  - intros d m Hd Hm.
    destruct (Exponential_degenerate d m Hd Hm) as (H0 & H1 & H2).
    repeat split; assumption.
Qed.

End ExponentialFacts.

(** [Exponential(1s, 2.0)] at the 35th attempt: the product [2^34 s] is
    beyond the largest duration, and the delay is the smallest one. *)
Lemma Exponential_Delay_not_clamped_witness :
  fst (backoff.Delay retry_test.Pow
         (backoff.exponential (1 * time.Second) (Float64.of_Z 2)) 35 0 tt)
  = time.minDuration.
Proof.
  apply (Exponential_Delay_not_clamped unit retry_test.Pow
           (1 * time.Second) (Float64.of_Z 2) 35 0 tt).
  - vm_compute. reflexivity.
  - vm_compute. split; discriminate.
  - right. split; vm_compute; [reflexivity | discriminate].
Defined.

(** C3 fails on the code: [Exponential(1s, 2.0)] is accepted, at the 35th
    attempt [d * m^(n-1)] exceeds the largest duration, and the delay
    returned is negative. *)
Lemma Exponential_Delay_overflow_is_negative :
  @backoff.Exponential unit (1 * time.Second) (Float64.of_Z 2)
  = Returns (backoff.exponential (1 * time.Second) (Float64.of_Z 2)) /\
  time.maxDuration < 1 * time.Second * 2 ^ (35 - 1) /\
  backoff.Delay retry_test.Pow
    (backoff.exponential (1 * time.Second) (Float64.of_Z 2)) 35 0 tt
  = (- 2 ^ 63, tt) /\
  ~ 0 <= fst (backoff.Delay retry_test.Pow
                (backoff.exponential (1 * time.Second) (Float64.of_Z 2))
                35 0 tt).
Proof.
  repeat split; vm_compute; try reflexivity.
  intros H. apply H. reflexivity.
Qed.

(** [Exponential(3, 1.5)] at the second attempt: [3 * 1.5] is computed
    without rounding, and the delay is 4. *)
Lemma Exponential_spec_witness :
  fst (backoff.Delay retry_test.Pow
         (backoff.exponential 3 (math.Ldexp (Float64.of_Z 3) (-1))) 2 0 tt)
  = Qfloor (inject_Z 3
            * Float64.to_Q (math.Ldexp (Float64.of_Z 3) (-1)) ^ (2 - 1))%Q.
Proof.
  destruct (Exponential_spec unit retry_test.Pow) as [Hformula _].
  destruct (Hformula 3 (math.Ldexp (Float64.of_Z 3) (-1)) 2 0 tt)
    as [Hfloor _].
  - vm_compute. split; discriminate.
  - lia.
  - vm_compute. discriminate.
  - split; vm_compute; reflexivity.
  - vm_compute. reflexivity.
  - exact Hfloor.
Defined.

(** C7 fails on the code.  [Exponential(3, 1.5)] is accepted and its delay
    for the second attempt is 4, not [3 * 1.5^1 = 9/2]: the product is
    truncated to a whole duration.  [Exponential(2^63-1, 2.0)] is accepted
    and its delay for the first attempt is [-2^63], not
    [d * 2^0 = 2^63-1]: the conversion of [d] to float64 rounds up to
    [2^63], which no duration holds. *)
Lemma Exponential_delay_differs_from_formula :
  (@backoff.Exponential unit 3 (math.Ldexp (Float64.of_Z 3) (-1))
   = Returns (backoff.exponential 3 (math.Ldexp (Float64.of_Z 3) (-1))) /\
   (Float64.to_Q (math.Ldexp (Float64.of_Z 3) (-1)) == 3 # 2)%Q /\
   backoff.Delay retry_test.Pow
     (backoff.exponential 3 (math.Ldexp (Float64.of_Z 3) (-1))) 2 0 tt
   = (4, tt) /\
   ~ (inject_Z 4 == inject_Z 3 * (3 # 2) ^ (2 - 1))%Q) /\
  (@backoff.Exponential unit time.maxDuration (Float64.of_Z 2)
   = Returns (backoff.exponential time.maxDuration (Float64.of_Z 2)) /\
   backoff.Delay retry_test.Pow
     (backoff.exponential time.maxDuration (Float64.of_Z 2)) 1 0 tt
   = (- 2 ^ 63, tt) /\
   - 2 ^ 63 <> time.maxDuration * 2 ^ (1 - 1)).
Proof.
  split.
  - split; [vm_compute; reflexivity |].
    split; [vm_compute; reflexivity |].
    split; [vm_compute; reflexivity |].
    vm_compute. discriminate.
  - split; [vm_compute; reflexivity |].
    split; [vm_compute; reflexivity |].
    vm_compute. discriminate.
Qed.

Section JitterFacts.
Import Float64.

Variable W : Type.
Variable Pow : float64 -> float64 -> float64.

(** The window of the jitter in exact arithmetic: for [0 <= D],
    [0 <= s < 1] and [0 <= r < 1] the value [D - s*D + r*(2*s*D + 1)] lies
    in [[D*(1-s), D*(1+s) + 1)]. *)
Lemma jitter_window_Q (D s r : Q) :
  (0 <= D)%Q -> (0 <= s)%Q -> (s < 1)%Q -> (0 <= r)%Q -> (r < 1)%Q ->
  (D * (1 - s) <= D - s * D + r * (2 * s * D + 1))%Q /\
  (D - s * D + r * (2 * s * D + 1) < D * (1 + s) + 1)%Q.
Proof.
  intros HD Hs0 Hs1 Hr0 Hr1.
  assert (0 <= s * D)%Q as HsD by (apply Qmult_le_0_compat; assumption).
  assert (0 < 2 * s * D + 1)%Q as Hc by lra.
  assert (0 <= r * (2 * s * D + 1))%Q as Hlo
    by (apply Qmult_le_0_compat; [assumption | lra]).
  assert (r * (2 * s * D + 1) < 1 * (2 * s * D + 1))%Q as Hhi
    by (apply Qmult_lt_compat_r; assumption).
  split; lra.
Qed.

(** C5, as amended.  For a spread in [[0,1)]: when the inner delay [D] is
    [Exit], the strategy built by [Jitter] returns [Exit] unchanged; when
    the spread is zero, it is the inner strategy itself and reproduces
    [D]; otherwise it returns the float
    [D - spread*D + r*(2*spread*D + 1)] converted to a duration, that is,
    truncated.  When that float is computed without rounding and is below
    [2^63], the delay for [D >= 0] lies between [D*(1-spread)] rounded
    down and [D*(1+spread) + 1]. *)
Theorem Jitter_spec (inner : backoff.Strategy W) (spread : float64)
    (random : backoff.Random W) (n : Z) (start : time.Time) (w : W) :
  in_unit_interval spread ->
  1 <= n ->
  let D := fst (backoff.Delay Pow inner n start w) in
  let w1 := snd (backoff.Delay Pow inner n start w) in
  let r := fst (random w1) in
  let w2 := snd (random w1) in
  exists s,
    backoff.Jitter inner spread random = Returns s /\
    (D = backoff.Exit -> backoff.Delay Pow s n start w = (backoff.Exit, w1)) /\
    (eqb spread (of_Z 0) = true ->
     s = inner /\ backoff.Delay Pow s n start w = (D, w1)) /\
    (D <> backoff.Exit -> eqb spread (of_Z 0) = false ->
     backoff.Delay Pow s n start w
     = (to_int64 (backoff.jitter_float D spread r), w2) /\
     (0 <= D -> in_unit_interval r ->
      let q := (inject_Z D - to_Q spread * inject_Z D
                + to_Q r * (2 * to_Q spread * inject_Z D + 1))%Q in
      exactly (backoff.jitter_float D spread r) q ->
      (q < inject_Z (2 ^ 63))%Q ->
      let delay := fst (backoff.Delay Pow s n start w) in
      Qfloor (inject_Z D * (1 - to_Q spread)) <= delay /\
      (inject_Z delay <= inject_Z D * (1 + to_Q spread) + 1)%Q)).
Proof.
  intros Hspread Hn D w1 r w2.
  pose proof (in_unit_interval_accepted spread Hspread) as Hacc.
  unfold backoff.Jitter. rewrite Hacc.
  assert (backoff.Delay Pow inner n start w = (D, w1)) as Hinner
    by (subst D w1; now destruct (backoff.Delay Pow inner n start w)).
  assert (random w1 = (r, w2)) as Hrandom
    by (subst r w2; now destruct (random w1)).
  destruct (eqb spread (of_Z 0)) eqn:Hzero.
  - exists inner. split; [reflexivity |].
    split; [intros HD; now rewrite Hinner, HD |].
    split; [intros _; split; [reflexivity | exact Hinner] |].
    intros _ Hfalse. discriminate Hfalse.
  - exists (backoff.jitter inner spread random). split; [reflexivity |].
    split; [| split].
    + intros HD. cbn [backoff.Delay]. rewrite Hinner, HD. reflexivity.
    + intros Htrue. discriminate Htrue.
    + intros HD _.
      assert (backoff.Delay Pow (backoff.jitter inner spread random)
                n start w
              = (to_int64 (backoff.jitter_float D spread r), w2)) as Hdelay.
      { cbn [backoff.Delay]. rewrite Hinner.
        destruct (Z.eqb_spec D backoff.Exit) as [Heq | _]; [contradiction |].
        rewrite Hrandom. reflexivity. }
      split; [exact Hdelay |].
      intros HD0 Hr Hexact Hlt.
      set (q := (inject_Z D - to_Q spread * inject_Z D
                 + to_Q r * (2 * to_Q spread * inject_Z D + 1))%Q) in *.
      destruct Hexact as [Hfin Hex].
      rewrite Hdelay. cbn [fst].
      destruct (in_unit_interval_to_Q spread Hspread) as [Hs0 Hs1].
      destruct (in_unit_interval_to_Q r Hr) as [Hr0 Hr1].
      assert (0 <= inject_Z D)%Q as HDq by (unfold Qle; cbn; lia).
      destruct (jitter_window_Q (inject_Z D) (to_Q spread) (to_Q r)
                  HDq Hs0 Hs1 Hr0 Hr1) as [Hlow Hup].
      fold q in Hlow, Hup.
      assert (0 <= inject_Z D * (1 - to_Q spread))%Q as Hbase
        by (apply Qmult_le_0_compat; [assumption | lra]).
      destruct (to_int64_floor (backoff.jitter_float D spread r) Hfin)
        as [Heq _].
      * rewrite Hex. lra.
      * now rewrite Hex.
      * rewrite Heq, Hex. split.
        -- now apply Qfloor_resp_le.
        -- apply Qle_trans with (y := q); [apply Qfloor_le | lra].
Qed.

End JitterFacts.

(** [TestJitterSmall]: a second jittered by a quarter, with the random
    number a quarter, is 875ms; no operation rounds, and the delay lies in
    the window. *)
Lemma Jitter_spec_witness :
  backoff.Delay retry_test.Pow
    (backoff.jitter (backoff.constant (1 * time.Second)) retry_test.f0_25
       (retry_test.random retry_test.f0_25)) 1 0 tt
  = (875 * time.Millisecond, tt) /\
  Qfloor (inject_Z (1 * time.Second) * (1 - Float64.to_Q retry_test.f0_25))
  <= 875 * time.Millisecond /\
  (inject_Z (875 * time.Millisecond)
   <= inject_Z (1 * time.Second) * (1 + Float64.to_Q retry_test.f0_25) + 1)%Q.
Proof.
  destruct (Jitter_spec unit retry_test.Pow
              (backoff.constant (1 * time.Second)) retry_test.f0_25
              (retry_test.random retry_test.f0_25) 1 0 tt)
    as (s & Hs & _ & _ & Hjitter).
  - repeat split; vm_compute; reflexivity.
  - lia.
  - change (Returns
              (backoff.jitter (backoff.constant (1 * time.Second))
                 retry_test.f0_25 (retry_test.random retry_test.f0_25))
            = Returns s) in Hs.
    injection Hs as <-.
    destruct Hjitter as [Hdelay Hwindow].
    + vm_compute. discriminate.
    + reflexivity.
    + split; [etransitivity; [exact Hdelay | vm_compute; reflexivity] |].
      apply Hwindow.
      * vm_compute. discriminate.
      * repeat split; vm_compute; reflexivity.
      * split; vm_compute; reflexivity.
      * vm_compute. reflexivity.
Defined.

(** C5 fails on the code: three nanoseconds jittered by a half, with the
    random number zero, give one nanosecond, which is below the window's
    lower end [3 * (1 - 0.5)]. *)
Lemma Jitter_truncates_below_window :
  Float64.in_unit_interval retry_test.f0_5 /\
  Float64.in_unit_interval (Float64.of_Z 0) /\
  @backoff.Jitter unit (backoff.constant 3) retry_test.f0_5
    (retry_test.random (Float64.of_Z 0))
  = Returns (backoff.jitter (backoff.constant 3) retry_test.f0_5
               (retry_test.random (Float64.of_Z 0))) /\
  backoff.Delay retry_test.Pow
    (backoff.jitter (backoff.constant 3) retry_test.f0_5
       (retry_test.random (Float64.of_Z 0))) 1 0 tt
  = (1, tt) /\
  ~ (inject_Z 3 * (1 - Float64.to_Q retry_test.f0_5) <= inject_Z 1)%Q.
Proof.
  repeat split; try (vm_compute; reflexivity).
  vm_compute. intros H. apply H. reflexivity.
Qed.

(** Rounding leaves the window too: [float64(2^55 + 3)] is [2^55], and the
    delay [2^54] is below [(2^55 + 3) * (1 - 0.5)] rounded down. *)
Lemma Jitter_rounds_below_window :
  backoff.Delay retry_test.Pow
    (backoff.jitter (backoff.constant (2 ^ 55 + 3)) retry_test.f0_5
       (retry_test.random (Float64.of_Z 0))) 1 0 tt
  = (2 ^ 54, tt) /\
  Qfloor (inject_Z (2 ^ 55 + 3) * (1 - Float64.to_Q retry_test.f0_5))
  = 2 ^ 54 + 1.
Proof.
  split; vm_compute; reflexivity.
Qed.

(** * The tests of the repository, replayed on the model *)

Section Tests.
Import Float64 retry retry_test.

(** exponential_test.go *)
Example TestExponentialIncrease :
  delays (backoff.exponential (1 * time.Second) (of_Z 2)) [1; 2; 3; 4]
  = [1 * time.Second; 2 * time.Second; 4 * time.Second;
     8 * time.Second].
Proof. vm_compute. reflexivity. Qed.

Example TestExponentialDecrease :
  delays (backoff.exponential (8 * time.Second) f0_5) [1; 2; 3; 4]
  = [8 * time.Second; 4 * time.Second; 2 * time.Second;
     1 * time.Second].
Proof. vm_compute. reflexivity. Qed.

(** [Exponential(1s, 2.0)] doubles up to the 34th attempt and yields the
    smallest duration from the 35th on. *)
Example Exponential_doubles_until_overflow :
  delays (backoff.exponential (1 * time.Second) (of_Z 2))
    (map Z.of_nat (seq 1 34))
  = map (fun n => 1 * time.Second * 2 ^ (Z.of_nat n - 1)) (seq 1 34) /\
  delays (backoff.exponential (1 * time.Second) (of_Z 2))
    (map Z.of_nat (seq 35 30))
  = map (fun _ => time.minDuration) (seq 35 30).
Proof. split; vm_compute; reflexivity. Qed.

(** The linear tests. *)
Example TestLinearPositive :
  delays (backoff.linear (1 * time.Second) (2 * time.Second)) [1; 2; 3; 4]
  = [1 * time.Second; 3 * time.Second; 5 * time.Second;
     7 * time.Second].
Proof. vm_compute. reflexivity. Qed.

Example TestLinearNegative :
  delays (backoff.linear (2 * time.Second) (- 1 * time.Second))
    [1; 2; 3; 4]
  = [2 * time.Second; 1 * time.Second; 0 * time.Second;
     0 * time.Second].
Proof. vm_compute. reflexivity. Qed.

(** cap_test.go *)
Example TestCap :
  delays (backoff.Cap (backoff.constant (1 * time.Second))
            (2 * time.Second)) [1]
  = [1 * time.Second] /\
  delays (backoff.Cap (backoff.constant (2 * time.Second))
            (1 * time.Second)) [1]
  = [1 * time.Second] /\
  delays (backoff.Cap (backoff.constant (1 * time.Second)) 0) [1]
  = [1 * time.Second].
Proof. repeat split. Qed.

(** The jitter tests. *)
Example TestJitter :
  delays (backoff.jitter (backoff.constant (1 * time.Second)) f0_25
            (random f0_25)) [1]
  = [875 * time.Millisecond] /\
  delays (backoff.jitter (backoff.constant (1 * time.Second)) f0_75
            (random f0_75)) [1]
  = [1375 * time.Millisecond] /\
  delays (backoff.jitter (backoff.constant (1 * time.Second)) f0_5
            (random f0_5)) [1]
  = [1 * time.Second] /\
  delays (backoff.jitter backoff.Once f0_5 (random f0_5)) [1]
  = [backoff.Exit] /\
  backoff.Jitter (backoff.constant (1 * time.Second)) (of_Z 0) (random f0_5)
  = Returns (@backoff.constant unit (1 * time.Second)).
Proof. repeat split; vm_compute; reflexivity. Qed.

(** The timeout tests. *)
Example TestTimeout :
  delays (backoff.Timeout (backoff.constant (1 * time.Second))
            (2 * time.Second) (clock (1 * time.Second))) [1]
  = [1 * time.Second] /\
  delays (backoff.Timeout (backoff.constant (1 * time.Second))
            (1 * time.Second) (clock (2 * time.Second))) [1]
  = [backoff.Exit] /\
  delays (backoff.Timeout (backoff.constant (1 * time.Second)) 0
            (clock 0)) [1]
  = [1 * time.Second].
Proof. repeat split. Qed.

(** retry_test.go: what each run returns. *)
Example TestCycler_Try :
  fst (fst (Try race Pow cycler attempt_Try 10 w0)) = Returned None.
Proof. reflexivity. Qed.

Example TestCycler_TryWithContext :
  fst (fst (TryWithContext race Pow cycler ctx attempt_TryWithContext 10 w0))
  = Returned (Some (OtherError Canceled)).
Proof. reflexivity. Qed.

Example TestCycler_OnError :
  i (snd (fst (Try race Pow (OnError cycler handler_OnError)
                 attempt_OnError 10 w0))) = N.
Proof. reflexivity. Qed.

Example TestCycler_Try_ExitError :
  fst (fst (Try race Pow cycler attempt_ExitError 10 w0))
  = Returned (Some ErrTest).
Proof. reflexivity. Qed.

End Tests.

(** * Further properties of package [backoff] *)

Section StrategyFacts.
Import Float64.

Variable W : Type.
Variable Pow : float64 -> float64 -> float64.

Lemma wrap_range (z : Z) : Int64.min <= Int64.wrap z <= Int64.max.
Proof.
  unfold Int64.wrap, Int64.min, Int64.max.
  pose proof (Z.mod_pos_bound (z + 2 ^ 63) (2 ^ 64) ltac:(lia)). lia.
Qed.

Lemma wrap_small (z : Z) :
  Int64.min <= z <= Int64.max -> Int64.wrap z = z.
Proof.
  unfold Int64.wrap, Int64.min, Int64.max. intros H.
  rewrite Z.mod_small by lia. lia.
Qed.

(** The wrap-around only sees its argument modulo 2^64. *)
Lemma wrap_shift (z q : Z) : Int64.wrap (z + q * 2 ^ 64) = Int64.wrap z.
Proof.
  unfold Int64.wrap.
  replace (z + q * 2 ^ 64 + 2 ^ 63) with (z + 2 ^ 63 + q * 2 ^ 64) by ring.
  now rewrite Z_mod_plus_full.
Qed.

Lemma wrap_eq (z : Z) : exists q, Int64.wrap z = z + q * 2 ^ 64.
Proof.
  exists (- ((z + 2 ^ 63) / 2 ^ 64)). unfold Int64.wrap.
  rewrite Z.mod_eq by lia. ring.
Qed.

(** X1.  Whatever its arguments, [linear.Delay] returns a delay that is
    neither negative nor [Exit], also when the 64-bit arithmetic
    overflows, and it leaves the world alone.  For [d >= 0] the constructor
    [Linear] returns a strategy whose delay is [max(0, d + k*(n-1))]
    whenever that sum fits 64 bits, the case [k = 0] included. *)
Theorem Linear_delay_is_clamped_at_zero (d k : time.Duration) (n : Z)
    (start : time.Time) (w : W) :
  (0 <= fst (backoff.Delay Pow (backoff.linear d k) n start w)
        <= time.maxDuration /\
   fst (backoff.Delay Pow (backoff.linear d k) n start w) <> backoff.Exit /\
   snd (backoff.Delay Pow (backoff.linear d k) n start w) = w) /\
  (0 <= d ->
   Int64.min <= k * (n - 1) + d <= Int64.max ->
   exists s,
     backoff.Linear d k = Returns s /\
     backoff.Delay Pow s n start w = (Z.max 0 (d + k * (n - 1)), w)).
Proof.
  split.
  - cbn [backoff.Delay fst snd]. unfold backoff.linear_Delay, backoff.Exit.
    pose proof (wrap_range (Int64.mul k (Int64.sub n 1) + d)) as Hr.
    unfold Int64.add. unfold time.maxDuration.
    destruct (Z.ltb_spec (Int64.wrap (Int64.mul k (Int64.sub n 1) + d)) 0);
      unfold Int64.max in *; repeat split; lia.
  - intros Hd Hs.
    assert (backoff.linear_Delay d k n = Z.max 0 (d + k * (n - 1))) as Hlin.
    { unfold backoff.linear_Delay, Int64.add, Int64.mul, Int64.sub.
      destruct (wrap_eq (n - 1)) as [q1 ->].
      replace (k * (n - 1 + q1 * 2 ^ 64))
        with (k * (n - 1) + k * q1 * 2 ^ 64) by ring.
      rewrite wrap_shift.
      destruct (wrap_eq (k * (n - 1))) as [q2 ->].
      replace (k * (n - 1) + q2 * 2 ^ 64 + d)
        with (k * (n - 1) + d + q2 * 2 ^ 64) by ring.
      rewrite wrap_shift.
      rewrite (wrap_small (k * (n - 1) + d)) by exact Hs.
      destruct (Z.ltb_spec (k * (n - 1) + d) 0); lia. }
    unfold backoff.Linear, backoff.Constant.
    destruct (Z.ltb_spec d 0) as [| _]; [lia |].
    destruct (Z.eqb_spec k 0) as [-> | _].
    + eexists. split; [reflexivity |]. cbn [backoff.Delay].
      f_equal. lia.
    + eexists. split; [reflexivity |]. cbn [backoff.Delay].
      now rewrite Hlin.
Qed.

(** X2.  The constructors of the base strategies panic exactly on a
    negative argument: [Constant] and [Linear] when [d < 0], [Exponential]
    when [d < 0] or [m < 0]. *)
Theorem base_constructors_panic_iff_negative :
  (forall d, @backoff.Constant W d = Panics <-> d < 0) /\
  (forall d k, @backoff.Linear W d k = Panics <-> d < 0) /\
  (forall d m,
     @backoff.Exponential W d m = Panics <->
     d < 0 \/ ltb m (of_Z 0) = true).
Proof.
  assert (forall d, @backoff.Constant W d = Panics <-> d < 0) as HC.
  { intros d. unfold backoff.Constant.
    destruct (Z.ltb_spec d 0); split; intros H'; try reflexivity;
      try discriminate; lia. }
  split; [exact HC |]. split.
  - intros d k. unfold backoff.Linear.
    destruct (Z.ltb_spec d 0) as [Hneg | Hpos].
    + split; [intros _; exact Hneg | reflexivity].
    + destruct (Z.eqb_spec k 0).
      * rewrite HC. reflexivity.
      * split; [discriminate | lia].
  - intros d m. unfold backoff.Exponential.
    destruct (Z.ltb_spec d 0) as [Hneg | Hpos].
    + split; [intros _; now left | reflexivity].
    + destruct (ltb m (of_Z 0)).
      * split; [intros _; now right | reflexivity].
      * assert (@backoff.Constant W 0 <> Panics) as H0
          by (rewrite HC; lia).
        assert (@backoff.Constant W d <> Panics) as Hd
          by (rewrite HC; lia).
        destruct ((d =? 0) || eqb m (of_Z 0));
          [| destruct (eqb m (of_Z 1))];
          (split; [intros H'; try contradiction; try discriminate
                  | intros [H' | H']; [lia | discriminate]]).
Qed.

(** X3.  For [N >= 1] the strategy built by [Limit] returns [Exit] for
    every attempt from the [N]-th on without asking the inner strategy, and
    below [N] it returns what the inner strategy returns; so it ends the
    cycle at the [N]-th attempt at the latest. *)
Theorem Limit_Delay_spec (s : backoff.Strategy W) (N n : Z)
    (start : time.Time) (w : W) :
  1 <= N ->
  (N <= n ->
   backoff.Delay Pow (backoff.Limit s N) n start w = (backoff.Exit, w)) /\
  (n < N ->
   backoff.Delay Pow (backoff.Limit s N) n start w
   = backoff.Delay Pow s n start w) /\
  backoff.exits_from Pow N (backoff.Limit s N).
Proof.
  intros HN. unfold backoff.Limit.
  destruct (Z.ltb_spec N 1) as [| _]; [lia |].
  split; [| split].
  - intros Hn. cbn [backoff.Delay]. rewrite Z.geb_leb.
    destruct (Z.leb_spec N n); [reflexivity | lia].
  - intros Hn. cbn [backoff.Delay]. rewrite Z.geb_leb.
    destruct (Z.leb_spec N n); [lia | reflexivity].
  - intros n' start' w' Hn. cbn [backoff.Delay]. rewrite Z.geb_leb.
    destruct (Z.leb_spec N n'); [reflexivity | lia].
Qed.

(** X4.  No decorator turns an [Exit] into a wait: when the inner strategy
    ends the cycle at the [N]-th attempt at the latest, so does the
    strategy that [Limit], [Timeout] or [Jitter] builds around it, whatever
    their parameters. *)
Theorem decorators_keep_Exit (s : backoff.Strategy W) (N : Z) :
  backoff.exits_from Pow N s ->
  (forall M, backoff.exits_from Pow N (backoff.Limit s M)) /\
  (forall lim clock,
     backoff.exits_from Pow N (backoff.Timeout s lim clock)) /\
  (forall spread random s',
     backoff.Jitter s spread random = Returns s' ->
     backoff.exits_from Pow N s').
Proof.
  intros Hs. split; [| split].
  - intros M n start w Hn. unfold backoff.Limit.
    destruct (M <? 1); [now apply Hs |].
    cbn [backoff.Delay]. destruct (n >=? M); [reflexivity | now apply Hs].
  - intros lim clock n start w Hn. unfold backoff.Timeout.
    destruct (lim <=? 0); [now apply Hs |].
    cbn [backoff.Delay]. destruct (clock w) as [now w1].
    destruct (time.Sub now start >=? lim); [reflexivity | now apply Hs].
  - intros spread random s' HJ n start w Hn. unfold backoff.Jitter in HJ.
    destruct (ltb spread (of_Z 0) || geb spread (of_Z 1));
      [discriminate |].
    destruct (eqb spread (of_Z 0)); injection HJ as <-;
      [now apply Hs |].
    cbn [backoff.Delay]. specialize (Hs n start w Hn).
    destruct (backoff.Delay Pow s n start w) as [delay w1].
    cbn [fst] in Hs. subst delay. reflexivity.
Qed.

Lemma mul_NaN_r (x : float64) : mul x NaN = NaN.
Proof. destruct x; reflexivity. Qed.

Lemma sub_NaN_r (x : float64) : sub x NaN = NaN.
Proof. destruct x; reflexivity. Qed.

Lemma jitter_float_NaN (delay : time.Duration) (r : float64) :
  backoff.jitter_float delay NaN r = NaN.
Proof.
  unfold backoff.jitter_float.
  rewrite !mul_NaN_r, sub_NaN_r. reflexivity.
Qed.

(** X5.  [Jitter] panics exactly when [spread < 0] or [spread >= 1] by the
    comparisons of float64.  A spread that is not a number passes both
    comparisons: [Jitter] accepts it, and the strategy it builds returns
    the smallest duration, [-2^63], for every inner delay other than
    [Exit]. *)
Theorem Jitter_validation (inner : backoff.Strategy W)
    (random : backoff.Random W) :
  (forall spread,
     backoff.Jitter inner spread random = Panics <->
     ltb spread (of_Z 0) = true \/ geb spread (of_Z 1) = true) /\
  backoff.Jitter inner NaN random
  = Returns (backoff.jitter inner NaN random) /\
  (forall n start w,
     fst (backoff.Delay Pow inner n start w) <> backoff.Exit ->
     fst (backoff.Delay Pow (backoff.jitter inner NaN random) n start w)
     = time.minDuration).
Proof.
  split; [| split].
  - intros spread. unfold backoff.Jitter.
    destruct (ltb spread (of_Z 0)); cbn [orb].
    + split; [intros _; now left | reflexivity].
    + destruct (geb spread (of_Z 1)).
      * split; [intros _; now right | reflexivity].
      * destruct (eqb spread (of_Z 0));
          (split; [discriminate | intros [H | H]; discriminate]).
  - reflexivity.
  - intros n start w Hne. cbn [backoff.Delay].
    destruct (backoff.Delay Pow inner n start w) as [delay w1].
    cbn [fst] in Hne.
    destruct (Z.eqb_spec delay backoff.Exit) as [Heq | _];
      [contradiction |].
    destruct (random w1) as [r w2]. cbn [fst].
    rewrite jitter_float_NaN. reflexivity.
Qed.

End StrategyFacts.

(** [Linear(5, -(2^62+1))] at the third attempt: the product [k * (n-1)]
    does not fit 64 bits, the sum does, and the delay is 0. *)
Lemma Linear_delay_is_clamped_at_zero_witness :
  exists s,
    @backoff.Linear unit 5 (- (2 ^ 62 + 1)) = Returns s /\
    backoff.Delay retry_test.Pow s 3 0 tt = (0, tt).
Proof.
  destruct (Linear_delay_is_clamped_at_zero unit retry_test.Pow
              5 (- (2 ^ 62 + 1)) 3 0 tt) as [_ H].
  destruct H as (s & Hs & Hd).
  - lia.
  - split; vm_compute; discriminate.
  - exists s. split; [exact Hs | exact Hd].
Defined.

(** [Limit(Constant(1ms), 3)] at the third attempt. *)
Lemma Limit_Delay_spec_witness :
  backoff.Delay retry_test.Pow
    (backoff.Limit (backoff.constant (1 * time.Millisecond)) 3) 3 0 tt
  = (backoff.Exit, tt).
Proof.
  destruct (Limit_Delay_spec unit retry_test.Pow
              (backoff.constant (1 * time.Millisecond)) 3 3 0 tt)
    as [Hup _].
  - lia.
  - apply Hup. lia.
Defined.

(** A jitter around a limit of three attempts still exits at the third. *)
Lemma decorators_keep_Exit_witness :
  backoff.exits_from retry_test.Pow 3
    (backoff.jitter
       (backoff.limit (backoff.constant (1 * time.Millisecond)) 3)
       retry_test.f0_5 (@retry_test.random unit retry_test.f0_5)).
Proof.
  destruct (decorators_keep_Exit unit retry_test.Pow
              (backoff.limit (backoff.constant (1 * time.Millisecond)) 3) 3)
    as (_ & _ & HJ).
  - intros n start w Hn. cbn [backoff.Delay]. rewrite Z.geb_leb.
    destruct (Z.leb_spec 3 n); [reflexivity | lia].
  - apply (HJ retry_test.f0_5 (retry_test.random retry_test.f0_5)).
    reflexivity.
Defined.

(** A jitter with a spread that is not a number, around a second. *)
Lemma Jitter_validation_witness :
  fst (backoff.Delay retry_test.Pow
         (backoff.jitter (backoff.constant (1 * time.Second)) Float64.NaN
            (retry_test.random retry_test.f0_5)) 1 0 tt)
  = time.minDuration.
Proof.
  destruct (Jitter_validation unit retry_test.Pow
              (backoff.constant (1 * time.Second))
              (retry_test.random retry_test.f0_5)) as (_ & _ & H).
  apply H. vm_compute. discriminate.
Defined.


(** * Further properties of the retry cycle *)

Section RunFacts.
Import retry.

Variables W E : Type.
Variable race : Context W E -> time.Duration -> W -> Wake * W.
Variable Pow : Float64.float64 -> Float64.float64 -> Float64.float64.
Variable c : Cycler W E.
Variable ctx : Context W E.
Variable attempt : AttemptFunc W E.

(** Every pass through the body of the loop is one of four. *)
Lemma iteration_cases (start : time.Time) (n : Z) (t : bool) (w : W) :
  let n' := Int64.add n 1 in
  (exists w1,
     attempt n' w = (None, w1) /\
     iteration race Pow c ctx attempt start n t w
     = ((Returned None, n', t), w1, [EvAttempt n' None])) \/
  (exists cause w1,
     attempt n' w = (Some (ExitError cause), w1) /\
     iteration race Pow c ctx attempt start n t w
     = ((Returned cause, n', t), w1,
        [EvAttempt n' (Some (ExitError cause))])) \/
  (exists e w1 w2,
     attempt n' w = (Some (OtherError e), w1) /\
     backoff.Delay Pow (strategy c) n' start w1 = (backoff.Exit, w2) /\
     iteration race Pow c ctx attempt start n t w
     = ((Returned (match Err ctx w2 with
                   | Some ce => Some ce
                   | None => Some (OtherError e)
                   end), n', t), w2,
        [EvAttempt n' (Some (OtherError e));
         EvDelay n' start backoff.Exit; EvCtxErr (Err ctx w2)])) \/
  (exists e w1 delay w2 wake w4,
     attempt n' w = (Some (OtherError e), w1) /\
     backoff.Delay Pow (strategy c) n' start w1 = (delay, w2) /\
     delay <> backoff.Exit /\
     race ctx delay
       (notified (handlers c) n' delay (Some (OtherError e)) w2)
     = (wake, w4) /\
     iteration race Pow c ctx attempt start n t w
     = ((match wake with
         | CtxDone => Returned (Err ctx w4)
         | TimerFired => Running
         end, n', true), w4,
        [EvAttempt n' (Some (OtherError e)); EvDelay n' start delay]
        ++ handler_calls (length (handlers c)) n' delay
             (Some (OtherError e))
        ++ [timer_set t delay; EvSelect wake]
        ++ match wake with
           | CtxDone => [EvCtxErr (Err ctx w4)]
           | TimerFired => []
           end)).
Proof.
  intros n'. subst n'.
  destruct (attempt (Int64.add n 1) w) as [[[e | cause] |] w1] eqn:Ha.
  - destruct (backoff.Delay Pow (strategy c) (Int64.add n 1) start w1)
      as [delay w2] eqn:Hd.
    destruct (Z.eq_dec delay backoff.Exit) as [-> | Hne].
    + right. right. left. exists e, w1, w2.
      split; [reflexivity |]. split; [exact Hd |].
      exact (iteration_Exit W E race Pow c ctx attempt start n t w w1 w2 e
               Ha Hd).
    + right. right. right.
      destruct (race ctx delay
                  (notified (handlers c) (Int64.add n 1) delay
                     (Some (OtherError e)) w2)) as [wake w4] eqn:Hr.
      exists e, w1, delay, w2, wake, w4.
      repeat (split; [first [reflexivity | assumption] |]).
      exact (iteration_retry W E race Pow c ctx attempt start n t w w1 w2
               w4 e delay wake Ha Hd Hne Hr).
  - right. left. exists cause, w1. split; [reflexivity |].
    exact (iteration_ExitError W E race Pow c ctx attempt start n t w w1
             cause Ha).
  - left. exists w1. split; [reflexivity |].
    exact (iteration_success W E race Pow c ctx attempt start n t w w1 Ha).
Qed.

(** A pass that goes on has waited for the timer. *)
Lemma iteration_Running_inv (start : time.Time) (n : Z) (t : bool) (w : W)
    (n' : Z) (t' : bool) (w' : W) (tr : list (Event E)) :
  iteration race Pow c ctx attempt start n t w
  = ((Running, n', t'), w', tr) ->
  n' = Int64.add n 1 /\ t' = true /\
  exists e delay,
    delay <> backoff.Exit /\
    tr = [EvAttempt n' (Some (OtherError e)); EvDelay n' start delay]
         ++ handler_calls (length (handlers c)) n' delay
              (Some (OtherError e))
         ++ [timer_set t delay; EvSelect TimerFired].
Proof.
  intros Hit.
  destruct (iteration_cases start n t w)
    as [(w1 & _ & H) | [(cause & w1 & _ & H)
        | [(e & w1 & w2 & _ & _ & H)
        | (e & w1 & delay & w2 & wake & w4 & _ & _ & Hne & _ & H)]]];
    rewrite H in Hit; try discriminate.
  destruct wake; [discriminate |].
  injection Hit as <- <- <- <-.
  split; [reflexivity |]. split; [reflexivity |].
  exists e, delay. split; [exact Hne | reflexivity].
Qed.

(** A loop that still runs after [S k] iterations ran after [k] and went
    through one more. *)
Lemma loop_Running_inv (start : time.Time) (k : nat) (n0 : Z) (t0 : bool)
    (w0 : W) (n : Z) (t : bool) (w : W) (tr : list (Event E)) :
  loop race Pow c ctx attempt start (S k) n0 t0 w0
  = ((Running, n, t), w, tr) ->
  exists n1 t1 w1 tr1 tr2,
    loop race Pow c ctx attempt start k n0 t0 w0
    = ((Running, n1, t1), w1, tr1) /\
    iteration race Pow c ctx attempt start n1 t1 w1
    = ((Running, n, t), w, tr2) /\
    tr = tr1 ++ tr2.
Proof.
  rewrite <- Nat.add_1_r.
  rewrite (loop_add W E race Pow c ctx attempt start k 1 n0 t0 w0).
  destruct (loop race Pow c ctx attempt start k n0 t0 w0)
    as [[[[[r | ] n1] t1] w1] tr1] eqn:Hrun; [discriminate |].
  rewrite (loop_one W E race Pow c ctx attempt start 0 n1 t1 w1).
  destruct (iteration race Pow c ctx attempt start n1 t1 w1)
    as [[[[[r | ] n2] t2] w2] tr2] eqn:Hit; [discriminate |].
  cbn. rewrite app_nil_r. intros H. injection H as <- <- <- <-.
  exists n1, t1, w1, tr1, tr2.
  repeat split; first [reflexivity | assumption].
Qed.

(** A loop that has returned ran for some iterations and returned from the
    next. *)
Lemma loop_Returned_inv (start : time.Time) (fuel : nat) (n0 : Z)
    (t0 : bool) (w0 : W) (r : option (error E)) (n : Z) (t : bool) (w : W)
    (tr : list (Event E)) :
  loop race Pow c ctx attempt start fuel n0 t0 w0
  = ((Returned r, n, t), w, tr) ->
  exists k n1 t1 w1 tr1 tr2,
    (k < fuel)%nat /\
    loop race Pow c ctx attempt start k n0 t0 w0
    = ((Running, n1, t1), w1, tr1) /\
    iteration race Pow c ctx attempt start n1 t1 w1
    = ((Returned r, n, t), w, tr2) /\
    tr = tr1 ++ tr2.
Proof.
  revert n0 t0 w0 tr. induction fuel as [| fuel IH]; intros n0 t0 w0 tr.
  - discriminate.
  - rewrite (loop_one W E race Pow c ctx attempt start fuel n0 t0 w0).
    destruct (iteration race Pow c ctx attempt start n0 t0 w0)
      as [[[[[r1 | ] n1] t1] w1] tr1] eqn:Hit.
    + rewrite app_nil_r. intros H. injection H as <- <- <- <- <-.
      exists 0%nat, n0, t0, w0, [], tr1.
      repeat split; [lia | exact Hit].
    + destruct (loop race Pow c ctx attempt start fuel n1 t1 w1)
        as [[x w2] tr2] eqn:Hl.
      intros H. injection H as -> -> <-.
      destruct (IH _ _ _ _ Hl)
        as (k & n2 & t2 & w3 & tr3 & tr4 & Hk & Hrun & Hlast & ->).
      exists (S k), n2, t2, w3, (tr1 ++ tr3), tr4.
      split; [lia |]. split; [| split; [exact Hlast |]].
      * rewrite (loop_one W E race Pow c ctx attempt start k n0 t0 w0).
        rewrite Hit, Hrun. reflexivity.
      * now rewrite app_assoc.
Qed.

(** A run that has returned stood at the head of the loop and returned from
    the next iteration. *)
Lemma TryWithContext_Returned_inv (fuel : nat) (w : W)
    (r : option (error E)) (w' : W) (tr : list (Event E)) :
  TryWithContext race Pow c ctx attempt fuel w = (Returned r, w', tr) ->
  exists k start n t w1 tr1 n' t' tr2,
    (k < fuel)%nat /\
    reaches race Pow c ctx attempt w k start n t w1 tr1 /\
    iteration race Pow c ctx attempt start n t w1
    = ((Returned r, n', t'), w', tr2) /\
    tr = tr1 ++ tr2 ++ timer_stopped t'.
Proof.
  unfold TryWithContext, bind, call_clock.
  destruct (Clock c w) as [start w0] eqn:Hc.
  destruct (loop race Pow c ctx attempt start fuel 0 false w0)
    as [[[[[r1 | ] n'] t'] w2] tr0] eqn:Hl.
  - destruct (loop_Returned_inv _ _ _ _ _ _ _ _ _ _ Hl)
      as (k & n1 & t1 & w1 & tr1 & tr2 & Hk & Hrun & Hlast & ->).
    intros H.
    assert (r1 = r /\ w2 = w'
            /\ tr = EvClock start :: (tr1 ++ tr2) ++ timer_stopped t')
      as (-> & -> & ->).
    { destruct t'; cbn in H; injection H as <- <- <-;
        repeat split; cbn; now rewrite ?app_nil_r. }
    exists k, start, n1, t1, w1, (EvClock start :: tr1), n', t', tr2.
    split; [exact Hk |]. split; [| split; [exact Hlast |]].
    + exists w0, tr1. repeat split; assumption.
    + cbn. now rewrite <- app_assoc.
  - cbn. discriminate.
Qed.

Lemma reaches_S_inv (w : W) (k : nat) (start : time.Time) (n : Z)
    (t : bool) (w' : W) (tr : list (Event E)) :
  reaches race Pow c ctx attempt w (S k) start n t w' tr ->
  exists n1 t1 w1 tr1 tr2,
    reaches race Pow c ctx attempt w k start n1 t1 w1 tr1 /\
    iteration race Pow c ctx attempt start n1 t1 w1
    = ((Running, n, t), w', tr2) /\
    tr = tr1 ++ tr2.
Proof.
  intros (w0 & tr0 & Hc & Hl & ->).
  destruct (loop_Running_inv _ _ _ _ _ _ _ _ _ Hl)
    as (n1 & t1 & w1 & tr1 & tr2 & Hrun & Hit & ->).
  exists n1, t1, w1, (EvClock start :: tr1), tr2.
  split; [| split; [exact Hit | reflexivity]].
  exists w0, tr1. repeat split; assumption.
Qed.

Lemma reaches_0_inv (w : W) (start : time.Time) (n : Z) (t : bool)
    (w' : W) (tr : list (Event E)) :
  reaches race Pow c ctx attempt w 0 start n t w' tr ->
  n = 0 /\ t = false /\ tr = [EvClock start].
Proof.
  intros (w0 & tr0 & Hc & Hl & ->). cbn in Hl.
  injection Hl as <- <- <- <-. repeat split.
Qed.


(** ** What the log of a run counts *)

Lemma count_app (f : Event E -> bool) (a b : list (Event E)) :
  count f (a ++ b) = (count f a + count f b)%nat.
Proof. unfold count. now rewrite filter_app, length_app. Qed.

Lemma count_cons (f : Event E -> bool) (x : Event E) (l : list (Event E)) :
  count f (x :: l) = ((if f x then 1 else 0) + count f l)%nat.
Proof. unfold count. cbn [filter]. now destruct (f x). Qed.

Lemma attempt_numbers_app (a b : list (Event E)) :
  attempt_numbers (a ++ b) = attempt_numbers a ++ attempt_numbers b.
Proof.
  induction a as [| x a IH]; [reflexivity |].
  destruct x; cbn; now rewrite ?IH.
Qed.

Lemma count_handler_calls (f : Event E -> bool) (b : bool) (k : nat)
    (n : Z) (d : time.Duration) (e : option (error E)) :
  (forall i, f (EvHandler i n d e) = b) ->
  count f (handler_calls k n d e) = if b then k else 0%nat.
Proof.
  intros Hf. unfold handler_calls, count.
  rewrite <- (length_seq k 0) at 2.
  induction (seq 0 k) as [| i l IH]; cbn [map filter length].
  - now destruct b.
  - rewrite Hf. destruct b; cbn [length]; now rewrite IH.
Qed.

Lemma attempt_numbers_handler_calls (k : nat) (n : Z) (d : time.Duration)
    (e : option (error E)) :
  attempt_numbers (handler_calls k n d e) = [].
Proof.
  unfold handler_calls. induction (seq 0 k) as [| i l IH]; cbn; auto.
Qed.

(** What one pass through the body of the loop logs. *)
Lemma iteration_log (start : time.Time) (n : Z) (t : bool) (w : W)
    (r : Result E) (n' : Z) (t' : bool) (w' : W) (tr : list (Event E)) :
  iteration race Pow c ctx attempt start n t w = ((r, n', t'), w', tr) ->
  n' = Int64.add n 1 /\
  attempt_numbers tr = [n'] /\
  (count is_wait tr <= 1)%nat /\
  (r = Running -> count is_wait tr = 1%nat) /\
  count is_handler_call tr = (length (handlers c) * count is_wait tr)%nat /\
  t' = (t || (0 <? count is_wait tr)%nat) /\
  count is_new_timer tr = (if t then 0 else count is_wait tr)%nat /\
  count is_reset tr = (if t then count is_wait tr else 0)%nat /\
  count is_stop tr = 0%nat.
Proof.
  intros Hit.
  destruct (iteration_cases start n t w)
    as [(w1 & _ & H) | [(cause & w1 & _ & H)
        | [(e & w1 & w2 & _ & _ & H)
        | (e & w1 & delay & w2 & wake & w4 & _ & _ & _ & _ & H)]]];
    rewrite H in Hit; injection Hit as <- <- <- <- <-.
  - cbn. rewrite Nat.mul_0_r, orb_false_r.
    repeat split; try discriminate; try lia; now destruct t.
  - cbn. rewrite Nat.mul_0_r, orb_false_r.
    repeat split; try discriminate; try lia; now destruct t.
  - cbn. rewrite Nat.mul_0_r, orb_false_r.
    repeat split; try discriminate; try lia; now destruct t.
  - cbn [attempt_numbers]. rewrite !count_cons, !count_app.
    rewrite attempt_numbers_app, attempt_numbers_handler_calls.
    rewrite (count_handler_calls is_handler_call true) by reflexivity.
    rewrite (count_handler_calls is_wait false) by reflexivity.
    rewrite (count_handler_calls is_new_timer false) by reflexivity.
    rewrite (count_handler_calls is_reset false) by reflexivity.
    rewrite (count_handler_calls is_stop false) by reflexivity.
    destruct t, wake; cbn; rewrite ?Nat.add_0_r, ?Nat.mul_1_r;
      repeat split; first [discriminate | lia].
Qed.

(** What the loop logs, from any state and for any bound. *)
Lemma loop_log (start : time.Time) (fuel : nat) (n : Z) (t : bool) (w : W)
    (r : Result E) (n' : Z) (t' : bool) (w' : W) (tr : list (Event E)) :
  loop race Pow c ctx attempt start fuel n t w = ((r, n', t'), w', tr) ->
  count is_handler_call tr = (length (handlers c) * count is_wait tr)%nat /\
  t' = (t || (0 <? count is_wait tr)%nat) /\
  count is_new_timer tr
  = (if t then 0 else Nat.min 1 (count is_wait tr))%nat /\
  (count is_new_timer tr + count is_reset tr = count is_wait tr)%nat /\
  count is_stop tr = 0%nat.
Proof.
  revert n t w tr. induction fuel as [| fuel IH]; intros n t w tr.
  - cbn. intros H. injection H as <- <- <- <- <-. cbn.
    rewrite Nat.mul_0_r, orb_false_r. repeat split. now destruct t.
  - rewrite loop_one.
    destruct (iteration race Pow c ctx attempt start n t w)
      as [[[[[r1 | ] n1] t1] w1] tr1] eqn:Hit;
      destruct (iteration_log _ _ _ _ _ _ _ _ _ Hit)
        as (_ & _ & Hle & Hw & Hh & Ht & Hn & Hr & Hs).
    + rewrite app_nil_r. intros H. injection H as <- <- <- <- <-.
      repeat split; try assumption.
      * rewrite Hn. destruct t; lia.
      * rewrite Hn, Hr. destruct t; lia.
    + specialize (Hw eq_refl).
      destruct (loop race Pow c ctx attempt start fuel n1 t1 w1)
        as [[[[r2 n2] t2] w2] tr2] eqn:Hl.
      intros H. injection H as <- <- <- <- <-.
      destruct (IH _ _ _ _ Hl) as (Hh2 & Ht2 & Hn2 & Hr2 & Hs2).
      rewrite !count_app. rewrite Hw in *.
      assert (t1 = true) as -> by (rewrite Ht; now destruct t).
      repeat split.
      * rewrite Hh, Hh2. lia.
      * now destruct t.
      * rewrite Hn, Hn2. now destruct t.
      * rewrite Hn2 in Hr2. rewrite Hn, Hr, Hn2. destruct t; lia.
      * rewrite Hs, Hs2. reflexivity.
Qed.

(** The log of a run: the clock, the loop, and the deferred [Stop] of a
    run that has returned with a timer. *)
Lemma TryWithContext_log (fuel : nat) (w : W) :
  exists start w0 r n' t' w' body,
    Clock c w = (start, w0) /\
    loop race Pow c ctx attempt start fuel 0 false w0
    = ((r, n', t'), w', body) /\
    TryWithContext race Pow c ctx attempt fuel w
    = (r, w',
       EvClock start :: body
       ++ match r with
          | Returned _ => timer_stopped t'
          | Running => []
          end).
Proof.
  unfold TryWithContext, bind, call_clock.
  destruct (Clock c w) as [start w0].
  destruct (loop race Pow c ctx attempt start fuel 0 false w0)
    as [[[[r n'] t'] w'] body] eqn:Hl.
  exists start, w0, r, n', t', w', body.
  split; [reflexivity |]. split; [exact Hl |].
  destruct r as [r |], t'; cbn; rewrite ?app_nil_r; reflexivity.
Qed.

(** The attempt counts of the loop, started with a count [n] that is not
    negative and bounded so that the count stays below 2^63. *)
Lemma loop_attempt_numbers (start : time.Time) (fuel : nat) (n : Z)
    (t : bool) (w : W) (r : Result E) (n' : Z) (t' : bool) (w' : W)
    (tr : list (Event E)) :
  loop race Pow c ctx attempt start fuel n t w = ((r, n', t'), w', tr) ->
  0 <= n -> n + Z.of_nat fuel <= Int64.max ->
  exists m,
    (m <= fuel)%nat /\
    n' = n + Z.of_nat m /\
    attempt_numbers tr = map (fun i => n + Z.of_nat i) (seq 1 m) /\
    match r with
    | Running => m = fuel
    | Returned _ => (1 <= m)%nat
    end.
Proof.
  revert n t w tr. induction fuel as [| fuel IH]; intros n t w tr.
  - cbn. intros H _ _. injection H as <- <- <- <- <-.
    exists 0%nat. cbn. repeat split; lia.
  - rewrite loop_one. intros H Hn Hmax.
    assert (Int64.add n 1 = n + 1) as Hadd.
    { unfold Int64.add. apply wrap_small.
      unfold Int64.min, Int64.max in *. lia. }
    destruct (iteration race Pow c ctx attempt start n t w)
      as [[[[[r1 | ] n1] t1] w1] tr1] eqn:Hit;
      destruct (iteration_log _ _ _ _ _ _ _ _ _ Hit)
        as (Hn1 & Ha & _).
    + rewrite app_nil_r in H. injection H as <- <- <- <- <-.
      exists 1%nat. rewrite Ha, Hn1, Hadd. cbn.
      repeat split; lia.
    + destruct (loop race Pow c ctx attempt start fuel n1 t1 w1)
        as [[[[r2 n2] t2] w2] tr2] eqn:Hl.
      injection H as <- <- <- <- <-.
      rewrite Hadd in Hn1. subst n1.
      destruct (IH _ _ _ _ Hl) as (m & Hm & Hn2 & Hnum & Hr);
        [lia | lia |].
      exists (S m). split; [lia |]. split; [lia |]. split.
      * rewrite attempt_numbers_app, Ha, Hnum.
        cbn [seq map app]. f_equal.
        rewrite <- (seq_shift m 1), map_map.
        apply map_ext. intros i. lia.
      * destruct r2; lia.
Qed.

(** A strategy that exits from the [N]-th attempt on makes the loop return
    before the count passes [N]. *)
Lemma loop_exits (N : Z) (start : time.Time) :
  backoff.exits_from Pow N (strategy c) ->
  N <= Int64.max ->
  forall (fuel : nat) (n : Z) (t : bool) (w : W),
    0 <= n < N -> N <= n + Z.of_nat fuel ->
    exists r n' t' w' tr,
      loop race Pow c ctx attempt start fuel n t w
      = ((Returned r, n', t'), w', tr).
Proof.
  intros Hexit Hmax.
  induction fuel as [| fuel IH]; intros n t w Hn Hfuel; [lia |].
  rewrite loop_one.
  assert (Int64.add n 1 = n + 1) as Hadd.
  { unfold Int64.add. apply wrap_small.
    unfold Int64.min, Int64.max in *. lia. }
  destruct (iteration_cases start n t w)
    as [(w1 & _ & H) | [(cause & w1 & _ & H)
        | [(e & w1 & w2 & _ & _ & H)
        | (e & w1 & delay & w2 & wake & w4 & _ & Hd & Hne & _ & H)]]];
    rewrite H; try (do 5 eexists; reflexivity).
  destruct wake; [do 5 eexists; reflexivity |].
  assert (n + 1 < N) as Hlt.
  { destruct (Z_lt_le_dec (n + 1) N) as [Hlt | Hge]; [exact Hlt |].
    exfalso. apply Hne.
    pose proof (Hexit (Int64.add n 1) start w1 ltac:(lia)) as Hx.
    rewrite Hd in Hx. exact Hx. }
  destruct (IH (Int64.add n 1) true w4) as (r & n' & t' & w' & tr & Hl);
    [lia | lia |].
  rewrite Hl. do 5 eexists; reflexivity.
Qed.

(** A loop whose attempts keep failing with an ordinary error, whose
    strategy never exits and whose context is never signalled goes on. *)
Lemma loop_goes_on (start : time.Time) :
  (forall n w, fst (backoff.Delay Pow (strategy c) n start w)
               <> backoff.Exit) ->
  (forall n w, exists e, fst (attempt n w) = Some (OtherError e)) ->
  (forall d w, fst (race ctx d w) = TimerFired) ->
  forall (fuel : nat) (n : Z) (t : bool) (w : W),
    exists n' t' w' tr,
      loop race Pow c ctx attempt start fuel n t w
      = ((Running, n', t'), w', tr) /\
      length (attempt_numbers tr) = fuel.
Proof.
  intros Hdelay Hfail Hrace.
  induction fuel as [| fuel IH]; intros n t w.
  - do 4 eexists. split; reflexivity.
  - rewrite loop_one.
    destruct (Hfail (Int64.add n 1) w) as [e0 He0].
    destruct (iteration race Pow c ctx attempt start n t w)
      as [[[[r1 n1] t1] w1] tr1] eqn:Hit.
    destruct (iteration_log _ _ _ _ _ _ _ _ _ Hit) as (_ & Hnum & _).
    destruct (iteration_cases start n t w)
      as [(w2 & Ha & H) | [(cause & w2 & Ha & H)
          | [(e & w2 & w3 & Ha & Hd & H)
          | (e & w2 & delay & w3 & wake & w4 & _ & _ & _ & Hr & H)]]];
      try (rewrite Ha in He0; discriminate).
    + exfalso.
      apply (Hdelay (Int64.add n 1) w2). now rewrite Hd.
    + pose proof (Hrace delay
                    (notified (handlers c) (Int64.add n 1) delay
                       (Some (OtherError e)) w3)) as Hw.
      rewrite Hr in Hw. cbn in Hw. subst wake.
      rewrite H in Hit. injection Hit as <- <- <- <- <-.
      destruct (IH (Int64.add n 1) true w4) as (n' & t' & w' & tr & Hl & Hk).
      rewrite Hl. do 4 eexists. split; [reflexivity |].
      rewrite attempt_numbers_app, length_app, Hk, Hnum. reflexivity.
Qed.

(** X6.  When an attempt returns nil, the run returns nil at once: the
    strategy is not asked for a delay, no handler is called, the context is
    not looked at and nothing is waited for; the world is the one the
    attempt left. *)
Theorem success_returns_nil_at_once (w : W) (k : nat)
    (start : time.Time) (n : Z) (t : bool) (w' : W) (tr : list (Event E))
    (w1 : W) :
  reaches race Pow c ctx attempt w k start n t w' tr ->
  attempt (Int64.add n 1) w' = (None, w1) ->
  forall extra,
    TryWithContext race Pow c ctx attempt (k + S extra) w
    = (Returned None, w1,
       tr ++ [EvAttempt (Int64.add n 1) None] ++ timer_stopped t).
Proof.
  intros Hreach Ha extra.
  eapply TryWithContext_returns; [exact Hreach |].
  eapply iteration_success; exact Ha.
Qed.

(** X7.  The attempts of a run are numbered 1, 2, 3, ... without gap or
    repetition, as long as the count fits 64 bits: a run bounded by [fuel]
    iterations has made the attempts 1 to [m] for some [m <= fuel], with
    [m = fuel] when it has not returned and [m >= 1] when it has. *)
Theorem attempts_are_numbered_from_one (fuel : nat) (w : W) :
  Z.of_nat fuel <= Int64.max ->
  exists m,
    (m <= fuel)%nat /\
    attempt_numbers (snd (TryWithContext race Pow c ctx attempt fuel w))
    = map Z.of_nat (seq 1 m) /\
    match fst (fst (TryWithContext race Pow c ctx attempt fuel w)) with
    | Running => m = fuel
    | Returned _ => (1 <= m)%nat
    end.
Proof.
  intros Hmax.
  destruct (TryWithContext_log fuel w)
    as (start & w0 & r & n' & t' & w' & body & _ & Hl & ->).
  destruct (loop_attempt_numbers _ _ _ _ _ _ _ _ _ _ Hl)
    as (m & Hm & _ & Hnum & Hr); [lia | lia |].
  exists m. split; [exact Hm |]. split; [| exact Hr].
  cbn [snd attempt_numbers]. rewrite attempt_numbers_app, Hnum.
  replace (attempt_numbers _) with (@nil Z);
    [now rewrite app_nil_r |].
  destruct r as [r |]; [destruct t' |]; reflexivity.
Qed.

(** X8.  In every run, whatever its bound and its outcome, each registered
    handler is called exactly once for each wait: the number of handler
    calls is the number of handlers times the number of [select]s.  No
    handler is called for an attempt that is not followed by a wait. *)
Theorem handlers_called_once_per_wait (fuel : nat) (w : W) :
  count is_handler_call
    (snd (TryWithContext race Pow c ctx attempt fuel w))
  = (length (handlers c)
     * count is_wait (snd (TryWithContext race Pow c ctx attempt fuel w)))%nat.
Proof.
  destruct (TryWithContext_log fuel w)
    as (start & w0 & r & n' & t' & w' & body & _ & Hl & ->).
  destruct (loop_log _ _ _ _ _ _ _ _ _ _ Hl) as (Hh & _).
  cbn [snd]. change (EvClock start :: ?l) with ([EvClock start] ++ l).
  rewrite !count_app, Hh.
  destruct r as [r |]; [destruct t' |]; cbn; lia.
Qed.

(** X9.  A run allocates at most one timer: one if it waits at all, none
    otherwise; every other wait resets that timer.  [Stop] is called only
    by a run that has returned, exactly once and as its last action, and
    just when the run has allocated a timer. *)
Theorem timer_created_once_and_stopped (fuel : nat) (w : W) :
  let '(r, _, tr) := TryWithContext race Pow c ctx attempt fuel w in
  count is_new_timer tr = Nat.min 1 (count is_wait tr) /\
  (count is_new_timer tr + count is_reset tr = count is_wait tr)%nat /\
  match r with
  | Returned _ =>
      exists body,
        tr = body ++ timer_stopped (0 <? count is_wait tr)%nat /\
        count is_stop body = 0%nat
  | Running => count is_stop tr = 0%nat
  end.
Proof.
  destruct (TryWithContext_log fuel w)
    as (start & w0 & r & n' & t' & w' & body & _ & Hl & ->).
  destruct (loop_log _ _ _ _ _ _ _ _ _ _ Hl)
    as (_ & Ht & Hn & Hr & Hs).
  cbn [orb] in Ht.
  assert (forall tail : list (Event E),
            count is_new_timer tail = 0%nat ->
            count is_reset tail = 0%nat ->
            count is_wait tail = 0%nat ->
            count is_new_timer (EvClock start :: body ++ tail)
            = Nat.min 1 (count is_wait (EvClock start :: body ++ tail)) /\
            (count is_new_timer (EvClock start :: body ++ tail)
             + count is_reset (EvClock start :: body ++ tail)
             = count is_wait (EvClock start :: body ++ tail))%nat /\
            count is_wait (EvClock start :: body ++ tail)
            = count is_wait body) as Hcount.
  { intros tail H1 H2 H3.
    change (EvClock start :: ?l) with ([EvClock start] ++ l).
    rewrite !count_app, H1, H2, H3. cbn. rewrite !Nat.add_0_r.
    repeat split; assumption. }
  destruct r as [r |].
  - destruct (Hcount (timer_stopped t'))
      as (H1 & H2 & H3); try (now destruct t').
    split; [exact H1 |]. split; [exact H2 |].
    exists (EvClock start :: body). rewrite H3, <- Ht.
    split; [reflexivity |].
    change (EvClock start :: ?l) with ([EvClock start] ++ l).
    rewrite count_app, Hs. reflexivity.
  - destruct (Hcount []) as (H1 & H2 & H3); try reflexivity.
    split; [exact H1 |]. split; [exact H2 |].
    rewrite app_nil_r.
    change (EvClock start :: ?l) with ([EvClock start] ++ l).
    rewrite count_app, Hs. reflexivity.
Qed.

(** X10.  A strategy that returns [Exit] from the [N]-th attempt on, as a
    limit of [N] attempts makes it, ends every cycle: whatever the attempts
    return, whatever the context and the scheduler do, the run returns
    after at least one and at most [N] attempts, and a larger bound on the
    loop changes nothing. *)
Theorem cycle_ends_within_limit (N : Z) :
  backoff.exits_from Pow N (strategy c) ->
  1 <= N <= Int64.max ->
  forall (w : W) (extra : nat),
    exists r w' tr,
      TryWithContext race Pow c ctx attempt (Z.to_nat N + extra) w
      = (Returned r, w', tr) /\
      (1 <= length (attempt_numbers tr) <= Z.to_nat N)%nat.
Proof.
  intros Hexit HN w extra.
  destruct (TryWithContext_log (Z.to_nat N) w)
    as (start & w0 & r & n' & t' & w' & body & Hc & Hl & Hrun).
  destruct (loop_exits N start Hexit ltac:(lia) (Z.to_nat N) 0 false w0)
    as (r1 & n1 & t1 & w1 & tr1 & Hl1); [lia | lia |].
  rewrite Hl1 in Hl. injection Hl as <- <- <- <- <-.
  destruct (loop_attempt_numbers _ _ _ _ _ _ _ _ _ _ Hl1)
    as (m & Hm & _ & Hnum & Hr); [lia | lia |].
  exists r1, w1, (EvClock start :: tr1 ++ timer_stopped t1).
  split.
  - unfold TryWithContext, bind, call_clock. rewrite Hc.
    rewrite loop_add, Hl1.
    destruct t1; cbn; rewrite ?app_nil_r; reflexivity.
  - cbn [attempt_numbers]. rewrite attempt_numbers_app, Hnum.
    replace (attempt_numbers (timer_stopped t1)) with (@nil Z)
      by (now destruct t1).
    rewrite app_nil_r, length_map, length_seq. lia.
Qed.

(** X11.  A cycler on the strategy [Once] makes exactly one attempt: it
    returns nil when the attempt does, the cause when the attempt returns
    an [ExitError], and otherwise the error of the context if there is one
    and else the error of the attempt.  No handler is called and no timer
    is allocated. *)
Theorem Once_makes_one_attempt (w : W) (extra : nat) :
  strategy c = backoff.Once ->
  let '(start, w0) := Clock c w in
  let '(err, w1) := attempt 1 w0 in
  TryWithContext race Pow c ctx attempt (S extra) w
  = (Returned match err with
              | Some (OtherError _) =>
                  match Err ctx w1 with
                  | Some ce => Some ce
                  | None => err
                  end
              | _ => result_of_attempt err
              end,
     w1,
     EvClock start :: EvAttempt 1 err
     :: match err with
        | Some (OtherError _) =>
            [EvDelay 1 start backoff.Exit; EvCtxErr (Err ctx w1)]
        | _ => []
        end).
Proof.
  intros Hs.
  pose proof (reaches_start W E race Pow c ctx attempt w) as Hreach.
  destruct (Clock c w) as [start w0]. cbn [fst snd] in Hreach.
  destruct (attempt 1 w0) as [err w1] eqn:Ha.
  change 1 with (Int64.add 0 1) in Ha.
  change (S extra) with (0 + S extra)%nat.
  destruct err as [[e | cause] |].
  - assert (backoff.Delay Pow (strategy c) (Int64.add 0 1) start w1
            = (backoff.Exit, w1)) as Hd by (rewrite Hs; reflexivity).
    rewrite (TryWithContext_returns W E race Pow c ctx attempt _ _ _ _ _ _
               _ _ _ _ _ _ Hreach
               (iteration_Exit W E race Pow c ctx attempt start 0 false
                  w0 w1 w1 e Ha Hd) extra).
    reflexivity.
  - rewrite (TryWithContext_returns W E race Pow c ctx attempt _ _ _ _ _ _
               _ _ _ _ _ _ Hreach
               (iteration_ExitError W E race Pow c ctx attempt start 0
                  false w0 w1 cause Ha) extra).
    reflexivity.
  - rewrite (TryWithContext_returns W E race Pow c ctx attempt _ _ _ _ _ _
               _ _ _ _ _ _ Hreach
               (iteration_success W E race Pow c ctx attempt start 0 false
                  w0 w1 Ha) extra).
    reflexivity.
Qed.

(** X12.  A run returns in four ways only.  Its last attempt returned nil,
    and the run returns nil; or it returned an [ExitError], and the run
    returns the cause; or it returned an ordinary error and then either
    the strategy returned [Exit], and the run returns the error of the
    context if there is one and else the error of the attempt, or the
    context was signalled during the wait, and the run returns the error
    of the context. *)
Theorem run_returns_in_four_ways_only (fuel : nat) (w : W)
    (r : option (error E)) (w' : W) (tr : list (Event E)) :
  TryWithContext race Pow c ctx attempt fuel w = (Returned r, w', tr) ->
  exists tr0 m err rest,
    tr = tr0 ++ EvAttempt m err :: rest /\
    attempt_numbers rest = [] /\
    match err with
    | None => r = None /\ count is_wait rest = 0%nat
    | Some (ExitError cause) => r = cause /\ count is_wait rest = 0%nat
    | Some (OtherError e) =>
        (exists start,
           In (EvDelay m start backoff.Exit) rest /\
           count is_wait rest = 0%nat /\
           r = match Err ctx w' with
               | Some ce => Some ce
               | None => err
               end) \/
        (In (EvSelect CtxDone) rest /\ r = Err ctx w')
    end.
Proof.
  intros Hrun.
  destruct (TryWithContext_Returned_inv _ _ _ _ _ Hrun)
    as (k & start & n & t & w1 & tr1 & n' & t' & tr2 & _ & _ & Hit & ->).
  assert (attempt_numbers (@timer_stopped E t') = [])
    as Hstop by (now destruct t').
  assert (count is_wait (@timer_stopped E t') = 0%nat)
    as Hstopw by (now destruct t').
  destruct (iteration_cases start n t w1)
    as [(w2 & _ & H) | [(cause & w2 & _ & H)
        | [(e & w2 & w3 & _ & _ & H)
        | (e & w2 & delay & w3 & wake & w4 & _ & _ & _ & _ & H)]]];
    rewrite H in Hit.
  - injection Hit as <- <- <- <- <-.
    exists tr1, (Int64.add n 1), None, (timer_stopped t).
    repeat split; assumption.
  - injection Hit as <- <- <- <- <-.
    exists tr1, (Int64.add n 1), (Some (ExitError cause)),
      (timer_stopped t).
    repeat split; assumption.
  - injection Hit as <- <- <- <- <-.
    exists tr1, (Int64.add n 1), (Some (OtherError e)),
      ([EvDelay (Int64.add n 1) start backoff.Exit; EvCtxErr (Err ctx w3)]
       ++ timer_stopped t).
    split; [reflexivity |]. split.
    + rewrite attempt_numbers_app, Hstop. reflexivity.
    + left. exists start. split; [now left |]. split.
      * rewrite count_app, Hstopw. reflexivity.
      * reflexivity.
  - destruct wake; [| discriminate].
    injection Hit as <- <- <- <- <-.
    exists tr1, (Int64.add n 1), (Some (OtherError e)),
      ([EvDelay (Int64.add n 1) start delay]
       ++ handler_calls (length (handlers c)) (Int64.add n 1) delay
            (Some (OtherError e))
       ++ [timer_set t delay; EvSelect CtxDone]
       ++ [EvCtxErr (Err ctx w4)] ++ timer_stopped true).
    split; [cbn; now rewrite <- !app_assoc |]. split.
    + rewrite !attempt_numbers_app, attempt_numbers_handler_calls.
      now destruct t.
    + right. split; [| reflexivity].
      apply in_or_app. right. apply in_or_app. right.
      right. now left.
Qed.

(** X13.  A cycle has no end of its own: as long as the attempts fail with
    ordinary errors, the strategy returns delays other than [Exit] and the
    context is not signalled, the run goes on, through as many attempts as
    it is given iterations. *)
Theorem cycle_goes_on_without_exit (fuel : nat) (w : W) :
  (forall n start w, fst (backoff.Delay Pow (strategy c) n start w)
                     <> backoff.Exit) ->
  (forall n w, exists e, fst (attempt n w) = Some (OtherError e)) ->
  (forall d w, fst (race ctx d w) = TimerFired) ->
  fst (fst (TryWithContext race Pow c ctx attempt fuel w)) = Running /\
  length (attempt_numbers
            (snd (TryWithContext race Pow c ctx attempt fuel w))) = fuel.
Proof.
  intros Hdelay Hfail Hrace.
  destruct (TryWithContext_log fuel w)
    as (start & w0 & r & n' & t' & w' & body & _ & Hl & ->).
  destruct (loop_goes_on start (fun n w => Hdelay n start w) Hfail Hrace
              fuel 0 false w0) as (n1 & t1 & w1 & tr1 & Hl1 & Hk).
  rewrite Hl1 in Hl. injection Hl as <- <- <- <- <-.
  cbn [fst snd attempt_numbers]. split; [reflexivity |].
  now rewrite app_nil_r.
Qed.

End RunFacts.

(** * Properties of the methods built on [TryWithContext] *)

Section CyclerFacts.
Import retry.

Variables W E : Type.
Variable race : Context W E -> time.Duration -> W -> Wake * W.
Variable Pow : Float64.float64 -> Float64.float64 -> Float64.float64.
Variable c : Cycler W E.
Variable attempt : AttemptFunc W E.

(** X14.  [Try] runs the cycle on the background context, whose channel
    never delivers: what it returns is fixed by the last attempt alone.  It
    returns nil when the last attempt returned nil or [ForceExit(nil)], the
    cause when it returned an [ExitError], and the error of the attempt
    itself otherwise; after the last attempt nothing is waited for. *)
Theorem Try_returns_what_the_last_attempt_returned (fuel : nat) (w : W)
    (r : option (error E)) (w' : W) (tr : list (Event E)) :
  (forall d w, fst (race Background d w) = TimerFired) ->
  Try race Pow c attempt fuel w = (Returned r, w', tr) ->
  exists tr0 m err rest,
    tr = tr0 ++ EvAttempt m err :: rest /\
    attempt_numbers rest = [] /\
    count is_wait rest = 0%nat /\
    r = result_of_attempt err.
Proof.
  intros Hrace Hrun. unfold Try in Hrun.
  destruct (TryWithContext_Returned_inv W E race Pow c Background attempt
              _ _ _ _ _ Hrun)
    as (k & start & n & t & w1 & tr1 & n' & t' & tr2 & _ & _ & Hit & ->).
  assert (attempt_numbers (@timer_stopped E t') = [])
    as Hstop by (now destruct t').
  assert (count is_wait (@timer_stopped E t') = 0%nat)
    as Hstopw by (now destruct t').
  destruct (iteration_cases W E race Pow c Background attempt start n t w1)
    as [(w2 & _ & H) | [(cause & w2 & _ & H)
        | [(e & w2 & w3 & _ & _ & H)
        | (e & w2 & delay & w3 & wake & w4 & _ & _ & _ & Hr & H)]]];
    rewrite H in Hit.
  - injection Hit as <- <- <- <- <-.
    exists tr1, (Int64.add n 1), None, (timer_stopped t).
    repeat split; assumption.
  - injection Hit as <- <- <- <- <-.
    exists tr1, (Int64.add n 1), (Some (ExitError cause)),
      (timer_stopped t).
    repeat split; assumption.
  - injection Hit as <- <- <- <- <-.
    exists tr1, (Int64.add n 1), (Some (OtherError e)),
      ([EvDelay (Int64.add n 1) start backoff.Exit;
        EvCtxErr (Err Background w3)] ++ timer_stopped t).
    split; [reflexivity |]. split; [| split].
    + rewrite attempt_numbers_app, Hstop. reflexivity.
    + rewrite count_app, Hstopw. reflexivity.
    + reflexivity.
  - pose proof (Hrace delay
                  (notified (handlers c) (Int64.add n 1) delay
                     (Some (OtherError e)) w3)) as Hw.
    rewrite Hr in Hw. cbn in Hw. subst wake. discriminate.
Qed.

(** X15.  After [c.Timeout(limit)] with [limit > 0], a cycle ends with the
    first failed attempt after which the cycler's own clock, the one that
    gave the start of the cycle, shows that [limit] or more has elapsed:
    the strategy configured before is not asked, no handler is called,
    nothing is waited for, and the run returns the error of the context if
    there is one and the error of the attempt otherwise. *)
Theorem Timeout_ends_the_cycle (ctx : Context W E) (lim : time.Duration)
    (w : W) (k : nat) (start : time.Time) (n : Z) (t : bool) (w' : W)
    (tr : list (Event E)) (e : E) (w1 : W) (now : time.Time) (w2 : W) :
  0 < lim ->
  reaches race Pow (Timeout c lim) ctx attempt w k start n t w' tr ->
  attempt (Int64.add n 1) w' = (Some (OtherError e), w1) ->
  Clock c w1 = (now, w2) ->
  lim <= time.Sub now start ->
  forall extra,
    TryWithContext race Pow (Timeout c lim) ctx attempt (k + S extra) w
    = (Returned (match Err ctx w2 with
                 | Some ce => Some ce
                 | None => Some (OtherError e)
                 end),
       w2,
       tr ++ [EvAttempt (Int64.add n 1) (Some (OtherError e));
              EvDelay (Int64.add n 1) start backoff.Exit;
              EvCtxErr (Err ctx w2)]
          ++ timer_stopped t).
Proof.
  intros Hlim Hreach Ha Hc Hel extra.
  eapply TryWithContext_returns; [exact Hreach |].
  eapply iteration_Exit; [exact Ha |].
  unfold Timeout, with_strategy, backoff.Timeout. cbn [strategy].
  destruct (Z.leb_spec lim 0) as [Hle | _]; [lia |].
  cbn [backoff.Delay]. rewrite Hc.
  rewrite Z.geb_leb.
  destruct (Z.leb_spec lim (time.Sub now start)) as [_ | Hlt];
    [reflexivity | lia].
Qed.

End CyclerFacts.

(** ** The properties of a run on the cycles of retry_test.go *)

Section RunWitnesses.
Import retry retry_test.

Ltac reach_by_eval :=
  eexists; eexists; split;
  [reflexivity | split; [vm_compute; reflexivity | reflexivity]].

(** [TestCycler_Try]: the third attempt succeeds. *)
Lemma success_returns_nil_at_once_witness :
  TryWithContext race Pow observed Background attempt_Try 3 w0
  = (Returned None, {| cancelled := false; i := 3 |},
     [EvClock 0;
      EvAttempt 1 (Some ErrTest); EvDelay 1 0 D;
      EvHandler 0 1 D (Some ErrTest); EvNewTimer D; EvSelect TimerFired;
      EvAttempt 2 (Some ErrTest); EvDelay 2 0 D;
      EvHandler 0 2 D (Some ErrTest); EvReset D; EvSelect TimerFired;
      EvAttempt 3 None; EvStop]).
Proof.
  apply (success_returns_nil_at_once World E race Pow observed Background
           attempt_Try w0 2 0 2 true {| cancelled := false; i := 3 |}
           [EvClock 0;
            EvAttempt 1 (Some ErrTest); EvDelay 1 0 D;
            EvHandler 0 1 D (Some ErrTest); EvNewTimer D;
            EvSelect TimerFired;
            EvAttempt 2 (Some ErrTest); EvDelay 2 0 D;
            EvHandler 0 2 D (Some ErrTest); EvReset D;
            EvSelect TimerFired]
           {| cancelled := false; i := 3 |}).
  - reach_by_eval.
  - reflexivity.
Defined.

(** [TestCycler_Try] within a bound of five iterations. *)
Lemma attempts_are_numbered_from_one_witness :
  exists m,
    (m <= 5)%nat /\
    attempt_numbers
      (snd (TryWithContext race Pow cycler Background attempt_Try 5 w0))
    = map Z.of_nat (seq 1 m) /\
    match
      fst (fst (TryWithContext race Pow cycler Background attempt_Try 5 w0))
    with
    | Running => m = 5%nat
    | Returned _ => (1 <= m)%nat
    end.
Proof.
  apply (attempts_are_numbered_from_one World E race Pow cycler Background
           attempt_Try 5 w0).
  vm_compute. discriminate.
Defined.

(** A cycle limited to three attempts that all fail. *)
Lemma cycle_ends_within_limit_witness :
  exists r w' tr,
    TryWithContext race Pow (Limit observed 3) ctx attempt_fail
      (Z.to_nat 3 + 0) w0
    = (Returned r, w', tr) /\
    (1 <= length (attempt_numbers tr) <= Z.to_nat 3)%nat.
Proof.
  apply (cycle_ends_within_limit World E race Pow (Limit observed 3) ctx
           attempt_fail 3).
  - intros n start w Hn. cbn. rewrite Z.geb_leb.
    destruct (Z.leb_spec 3 n); [reflexivity | lia].
  - vm_compute. split; discriminate.
Defined.

(** A cycler on [Once] whose attempt fails. *)
Lemma Once_makes_one_attempt_witness :
  TryWithContext race Pow (NewCycler (clock 0) backoff.Once) ctx
    attempt_fail 1 w0
  = (Returned (Some ErrTest), w0,
     [EvClock 0; EvAttempt 1 (Some ErrTest);
      EvDelay 1 0 backoff.Exit; EvCtxErr None]).
Proof.
  exact (Once_makes_one_attempt World E race Pow
           (NewCycler (clock 0) backoff.Once) ctx attempt_fail w0 0
           eq_refl).
Defined.

(** [TestCycler_TryWithContext]: the third attempt cancels the context. *)
Lemma run_returns_in_four_ways_only_witness :
  exists tr0 m err rest,
    [EvClock 0;
     EvAttempt 1 (Some ErrTest); EvDelay 1 0 D; EvNewTimer D;
     EvSelect TimerFired;
     EvAttempt 2 (Some ErrTest); EvDelay 2 0 D; EvReset D;
     EvSelect TimerFired;
     EvAttempt 3 (Some ErrTest); EvDelay 3 0 D; EvReset D;
     EvSelect CtxDone; EvCtxErr (Some (OtherError Canceled)); EvStop]
    = tr0 ++ EvAttempt m err :: rest /\
    attempt_numbers rest = [] /\
    match err with
    | None =>
        Some (OtherError Canceled) = None /\ count is_wait rest = 0%nat
    | Some (ExitError cause) =>
        Some (OtherError Canceled) = cause /\ count is_wait rest = 0%nat
    | Some (OtherError e) =>
        (exists start,
           In (EvDelay m start backoff.Exit) rest /\
           count is_wait rest = 0%nat /\
           Some (OtherError Canceled)
           = match Err ctx (cancel w0) with
             | Some ce => Some ce
             | None => err
             end) \/
        (In (EvSelect CtxDone) rest /\
         Some (OtherError Canceled) = Err ctx (cancel w0))
    end.
Proof.
  apply (run_returns_in_four_ways_only World E race Pow cycler ctx
           attempt_TryWithContext 10 w0).
  vm_compute. reflexivity.
Defined.

(** A cycle on a constant delay whose attempts all fail, on the background
    context. *)
Lemma cycle_goes_on_without_exit_witness :
  fst (fst (TryWithContext race_ctx Pow cycler Background attempt_fail 4 w0))
  = Running /\
  length (attempt_numbers
            (snd (TryWithContext race_ctx Pow cycler Background attempt_fail
                    4 w0))) = 4%nat.
Proof.
  apply (cycle_goes_on_without_exit World E race_ctx Pow cycler Background
           attempt_fail 4 w0).
  - intros n start w. vm_compute. discriminate.
  - intros n w. exists test. reflexivity.
  - intros d w. reflexivity.
Defined.

(** [TestCycler_Try_ExitError]: the third attempt returns
    [ForceExit(ErrTest)]. *)
Lemma Try_returns_what_the_last_attempt_returned_witness :
  exists tr0 m err rest,
    [EvClock 0;
     EvAttempt 1 (Some ErrTest); EvDelay 1 0 D; EvNewTimer D;
     EvSelect TimerFired;
     EvAttempt 2 (Some ErrTest); EvDelay 2 0 D; EvReset D;
     EvSelect TimerFired;
     EvAttempt 3 (Some (ExitError (Some ErrTest))); EvStop]
    = tr0 ++ EvAttempt m err :: rest /\
    attempt_numbers rest = [] /\
    count is_wait rest = 0%nat /\
    Some ErrTest = result_of_attempt err.
Proof.
  apply (Try_returns_what_the_last_attempt_returned World E race_ctx Pow
           cycler attempt_ExitError 10 w0 (Some ErrTest) w0).
  - intros d w. reflexivity.
  - vm_compute. reflexivity.
Defined.

(** A cycler whose clock reads the counter of the world, with a timeout of
    five; the first attempt fails and moves the counter from 1 to 6. *)
Lemma Timeout_ends_the_cycle_witness :
  let c := {| strategy := backoff.constant D;
              handlers := [];
              Clock := fun w : World => (i w, w) |} in
  let attempt : AttemptFunc World E :=
    fun _ w => (Some ErrTest, {| cancelled := cancelled w; i := i w + 5 |}) in
  TryWithContext race Pow (Timeout c 5) ctx attempt 1 w0
  = (Returned (Some ErrTest), {| cancelled := false; i := 6 |},
     [EvClock 1; EvAttempt 1 (Some ErrTest);
      EvDelay 1 1 backoff.Exit; EvCtxErr None]).
Proof.
  intros c attempt.
  apply (Timeout_ends_the_cycle World E race Pow c attempt ctx 5 w0 0 1 0
           false w0 [EvClock 1] test {| cancelled := false; i := 6 |} 6
           {| cancelled := false; i := 6 |}).
  - lia.
  - reach_by_eval.
  - reflexivity.
  - reflexivity.
  - vm_compute. discriminate.
Defined.

End RunWitnesses.

(** * The sign of the exponential delay *)

Section ExponentialSign.
Import Float64.

Variable W : Type.
Variable Pow : float64 -> float64 -> float64.

Lemma signbit_round_aux (mx ex : Z) (lx : location) :
  signbit (binary_round_aux prec emax false mx ex lx) = false.
Proof.
  unfold binary_round_aux.
  destruct (shr_fexp prec emax mx ex lx) as [mrs' e'].
  destruct (shr_fexp prec emax _ e' loc_Exact) as [mrs'' e''].
  destruct (shr_m mrs''); [reflexivity | | reflexivity].
  destruct (e'' <=? emax - prec); reflexivity.
Qed.

Lemma signbit_of_Z (z : Z) : 0 <= z -> signbit (of_Z z) = false.
Proof.
  intros Hz. unfold of_Z, binary_normalize.
  destruct z as [| p | p]; [reflexivity | | lia].
  unfold binary_round.
  destruct (shl_align p 0 _) as [mz ez]. apply signbit_round_aux.
Qed.

Lemma signbit_mul (x y : float64) :
  signbit x = false -> signbit y = false -> signbit (mul x y) = false.
Proof.
  intros Hx Hy. unfold mul.
  destruct x as [sx | sx | | sx mx ex], y as [sy | sy | | sy my ey];
    cbn [signbit] in Hx, Hy; subst; cbn [SFmul xorb signbit];
    try reflexivity.
  apply signbit_round_aux.
Qed.

(** The conversion of a float without sign gives a count that is not
    negative, or the integer indefinite value. *)
Lemma to_int64_unsigned (x : float64) :
  signbit x = false -> 0 <= to_int64 x <= Int64.max \/ to_int64 x = Int64.min.
Proof.
  intros Hx. unfold to_int64.
  assert (forall z, 0 <= z ->
            0 <= (if Int64.in_range z then z else Int64.min) <= Int64.max
            \/ (if Int64.in_range z then z else Int64.min) = Int64.min)
    as Hrange.
  { intros z Hz. unfold Int64.in_range.
    destruct (Z.leb_spec Int64.min z); cbn [andb]; [| now right].
    destruct (Z.leb_spec z Int64.max); [left; lia | now right]. }
  destruct x as [s | s | | s m e]; cbn [signbit] in Hx; subst;
    cbn [trunc]; try (now right).
  - apply Hrange. lia.
  - destruct e as [| p | p]; cbn [cond_Zopp]; apply Hrange.
    + lia.
    + apply Z.mul_nonneg_nonneg; [lia |]. apply Z.pow_nonneg. lia.
    + apply Z.div_pos; [lia |]. apply Z.pow_pos_nonneg; lia.
Qed.

(** X16.  A strategy that [Exponential] returns never ends a cycle by
    itself: provided [math.Pow] returns a result without sign for the base
    [m], the delay is either not negative or, when the product has
    outgrown 64 bits, -2^63; it is never [Exit].  The world is left
    alone. *)
Theorem Exponential_delay_is_never_Exit (d : time.Duration) (m : float64)
    (s : backoff.Strategy W) (n : Z) (start : time.Time) (w : W) :
  backoff.Exponential d m = Returns s ->
  signbit (Pow m (of_Z (Int64.sub n 1))) = false ->
  (0 <= fst (backoff.Delay Pow s n start w)
   \/ fst (backoff.Delay Pow s n start w) = Int64.min) /\
  fst (backoff.Delay Pow s n start w) <> backoff.Exit /\
  snd (backoff.Delay Pow s n start w) = w.
Proof.
  intros Hs Hp.
  assert (0 <= fst (backoff.Delay Pow s n start w)
          \/ fst (backoff.Delay Pow s n start w) = Int64.min) as Hrange.
  { unfold backoff.Exponential, backoff.Constant in Hs.
    destruct (Z.ltb_spec d 0) as [| Hd]; [discriminate |].
    destruct (ltb m (of_Z 0)); [discriminate |].
    destruct ((d =? 0) || eqb m (of_Z 0)).
    - cbn in Hs. injection Hs as <-. cbn. left. lia.
    - destruct (eqb m (of_Z 1)).
      + injection Hs as <-. cbn [backoff.Delay fst]. left. lia.
      + injection Hs as <-. cbn [backoff.Delay fst].
        unfold backoff.exponential_Delay.
        destruct (to_int64_unsigned
                    (mul (of_Z d) (Pow m (of_Z (Int64.sub n 1)))))
          as [H | H].
        * apply signbit_mul; [now apply signbit_of_Z | exact Hp].
        * left. lia.
        * now right. }
  split; [exact Hrange |]. split.
  - unfold backoff.Exit, Int64.min in *. lia.
  - unfold backoff.Exponential, backoff.Constant in Hs.
    destruct (d <? 0); [discriminate |].
    destruct (ltb m (of_Z 0)); [discriminate |].
    destruct ((d =? 0) || eqb m (of_Z 0));
      [cbn in Hs; injection Hs as <-; reflexivity |].
    destruct (eqb m (of_Z 1)); injection Hs as <-; reflexivity.
Qed.

End ExponentialSign.

(** [Exponential(1s, 2.0)] at the attempt 64, where the product has
    outgrown 64 bits. *)
Lemma Exponential_delay_is_never_Exit_witness :
  fst (backoff.Delay retry_test.Pow
         (backoff.exponential (1 * time.Second) (Float64.of_Z 2)) 64 0 tt)
  <> backoff.Exit.
Proof.
  destruct (Exponential_delay_is_never_Exit unit retry_test.Pow
              (1 * time.Second) (Float64.of_Z 2)
              (backoff.exponential (1 * time.Second) (Float64.of_Z 2))
              64 0 tt) as (_ & H & _).
  - vm_compute. reflexivity.
  - vm_compute. reflexivity.
  - exact H.
Defined.

(** [Linear(-1, 5)] panics. *)
Lemma base_constructors_panic_iff_negative_witness :
  @backoff.Linear unit (-1) 5 = Panics.
Proof.
  destruct (base_constructors_panic_iff_negative unit) as (_ & HL & _).
  apply HL. lia.
Defined.

(** * The order of the wrappers *)

Section WrapperOrder.
Import Float64.

Variable W : Type.
Variable Pow : float64 -> float64 -> float64.

(** X17.  The order in which a strategy is wrapped by [Limit], [Timeout]
    and [Jitter] does not matter for the delay it returns, nor for what
    asking it does to the world: [Jitter] commutes with [Limit] and with
    [Timeout], and [Limit] commutes with [Timeout] when reading the clock
    has no side effect (with [Limit] outside, the clock is not read once
    the limit is reached). *)
Theorem wrappers_commute (s : backoff.Strategy W) (N : Z)
    (lim : time.Duration) (clock : backoff.Clock W) (spread : float64)
    (random : backoff.Random W) (js : backoff.Strategy W) (n : Z)
    (start : time.Time) (w : W) :
  backoff.Jitter s spread random = Returns js ->
  (exists js',
     backoff.Jitter (backoff.Limit s N) spread random = Returns js' /\
     backoff.Delay Pow js' n start w
     = backoff.Delay Pow (backoff.Limit js N) n start w) /\
  (exists js',
     backoff.Jitter (backoff.Timeout s lim clock) spread random
     = Returns js' /\
     backoff.Delay Pow js' n start w
     = backoff.Delay Pow (backoff.Timeout js lim clock) n start w) /\
  ((forall w, snd (clock w) = w) ->
   backoff.Delay Pow (backoff.Limit (backoff.Timeout s lim clock) N)
     n start w
   = backoff.Delay Pow (backoff.Timeout (backoff.Limit s N) lim clock)
       n start w).
Proof.
  intros HJ. unfold backoff.Jitter in *.
  destruct (ltb spread (of_Z 0) || geb spread (of_Z 1)); [discriminate |].
  split; [| split].
  - destruct (eqb spread (of_Z 0)); injection HJ as <-;
      (eexists; split; [reflexivity |]); [reflexivity |].
    unfold backoff.Limit.
    destruct (N <? 1); [reflexivity |].
    cbn [backoff.Delay]. destruct (n >=? N); reflexivity.
  - destruct (eqb spread (of_Z 0)); injection HJ as <-;
      (eexists; split; [reflexivity |]); [reflexivity |].
    unfold backoff.Timeout.
    destruct (lim <=? 0); [reflexivity |].
    cbn [backoff.Delay]. destruct (clock w) as [now w1].
    destruct (time.Sub now start >=? lim); reflexivity.
  - intros Hpure. unfold backoff.Limit, backoff.Timeout.
    destruct (N <? 1), (lim <=? 0); try reflexivity.
    cbn [backoff.Delay]. specialize (Hpure w).
    destruct (clock w) as [now w1]. cbn [snd] in Hpure. subst w1.
    destruct (n >=? N), (time.Sub now start >=? lim); reflexivity.
Qed.

End WrapperOrder.

(** A limit of three attempts and a timeout of two seconds on a clock that
    stands at three seconds, around a constant second, at the second
    attempt: [Exit] in either order. *)
Lemma wrappers_commute_witness :
  backoff.Delay retry_test.Pow
    (backoff.Limit
       (backoff.Timeout (backoff.constant (1 * time.Second))
          (2 * time.Second) (retry_test.clock (3 * time.Second))) 3)
    2 0 tt
  = backoff.Delay retry_test.Pow
      (backoff.Timeout
         (backoff.Limit (backoff.constant (1 * time.Second)) 3)
         (2 * time.Second) (retry_test.clock (3 * time.Second)))
      2 0 tt.
Proof.
  destruct (wrappers_commute unit retry_test.Pow
              (backoff.constant (1 * time.Second)) 3 (2 * time.Second)
              (retry_test.clock (3 * time.Second)) retry_test.f0_5
              (retry_test.random retry_test.f0_5)
              (backoff.jitter (backoff.constant (1 * time.Second))
                 retry_test.f0_5 (retry_test.random retry_test.f0_5))
              2 0 tt) as (_ & _ & H).
  - vm_compute. reflexivity.
  - apply H. intros w. reflexivity.
Defined.
